(** * Pseudo-translation generator: [scripts/generate_translations.py]

    A shallow embedding of the script and the properties of its two
    transformers and of the nested-path accessor and mutator they share.

    Modelling decisions.
    - A value produced by [json.load] is a [json]: [None], a boolean, an
      integer, a float, a string, a list or a [dict] with string keys.  A
      [dict] is a [gmap string json]: the script never depends on the
      order of a dictionary (it dumps with [sort_keys=True]).
    - Python mutates dictionaries in place.  Every mutated dictionary of the
      script is reachable from exactly one owner (its parent, finally the
      root the caller holds), so an in-place update is modelled by
      rebuilding the owner around the updated child.
    - An exception is a value of [exn]; a computation that may raise
      returns a [result].
    - The builtins whose exact result depends on Unicode tables or on the
      order of a dictionary ([str.title], [str.strip], the text form of a
      value that is not a string) are the fields of the class [Builtins];
      the theorems hold for every instance, and [ascii_builtins] is the
      instance used to run the script on ASCII text. *)

From stdpp Require Import base option list strings gmap fin_maps pretty.
From Stdlib Require Import ZArith Ascii String.

Set Warnings "-register-all".
Local Open Scope string_scope.

(** ** Values *)

Inductive json : Type :=
  | JNull                                 (* None *)
  | JBool (b : bool)
  | JInt (z : Z)
  | JFloat (bits : Z)                     (* binary64, by its bit pattern *)
  | JStr (s : string)
  | JList (l : list json)
  | JDict (d : gmap string json).

Definition is_dict (v : json) : bool :=   (* isinstance(v, dict) *)
  match v with JDict _ => true | _ => false end.

Definition is_str (v : json) : bool :=    (* isinstance(v, str) *)
  match v with JStr _ => true | _ => false end.

Definition is_none (v : json) : bool :=   (* v is None *)
  match v with JNull => true | _ => false end.

(** ** Exceptions *)

Inductive exn : Type :=
  | KeyError
  | TypeError
  | IndexError
  | JSONDecodeError.   (* any failure of [open] or [json.load] on an existing file *)

Inductive result (A : Type) : Type :=
  | Ok (a : A)
  | Raise (e : exn).
Arguments Ok {A} a.
Arguments Raise {A} e.

(** Sequencing: the first exception raised ends the computation.  This is
    the bind of stdpp's notation [x ← r; k]. *)
#[global] Instance result_bind : MBind result := λ A B k r,
  match r with
  | Ok a => k a
  | Raise e => Raise e
  end.

(** ** Strings *)

Definition ascii_eqb (a b : ascii) : bool := bool_decide (a = b).

(** [s.split(sep)] for a one-character separator: never the empty list. *)
Fixpoint str_split (sep : ascii) (s : string) : list string :=
  match s with
  | EmptyString => [""]
  | String c s' =>
      if ascii_eqb c sep then "" :: str_split sep s'
      else match str_split sep s' with
           | [] => [String c ""]
           | p :: ps => String c p :: ps
           end
  end.

(** [s.replace(a, b)] for one-character [a] and [b]. *)
Fixpoint str_replace (a b : ascii) (s : string) : string :=
  match s with
  | EmptyString => EmptyString
  | String c s' => String (if ascii_eqb c a then b else c) (str_replace a b s')
  end.

Fixpoint str_prefix (p s : string) : bool :=
  match p, s with
  | EmptyString, _ => true
  | String a p', String b s' => ascii_eqb a b && str_prefix p' s'
  | String _ _, EmptyString => false
  end.

(** [p in s] for strings: [p] occurs in [s]. *)
Fixpoint str_contains (p s : string) : bool :=
  str_prefix p s ||
  match s with
  | EmptyString => false
  | String _ s' => str_contains p s'
  end.

Definition dot : ascii := "."%char.

(** ** Subscripting, membership and iteration, as Python defines them on
    the values [json.load] returns *)

(** [key in data], for a string [key]. *)
Definition py_in (key : string) (data : json) : result bool :=
  match data with
  | JDict d => Ok (bool_decide (is_Some (d !! key)))
  | JList l => Ok (existsb (fun v => match v with
                                     | JStr s => bool_decide (s = key)
                                     | _ => false
                                     end) l)
  | JStr s => Ok (str_contains key s)
  | _ => Raise TypeError
  end.

(** [data[key]], for a string [key]. *)
Definition getitem (data : json) (key : string) : result json :=
  match data with
  | JDict d => match d !! key with
               | Some v => Ok v
               | None => Raise KeyError
               end
  | _ => Raise TypeError
  end.

(** [data[key] = value], for a string [key]: the updated [data]. *)
Definition setitem (data : json) (key : string) (value : json) : result json :=
  match data with
  | JDict d => Ok (JDict (<[key := value]> d))
  | _ => Raise TypeError
  end.

(** ** The nested-path accessor *)

(** The loop of [get_nested]: [data] is the node reached so far. *)
Fixpoint get_loop (data : json) (parts : list string) : json :=
  match parts with
  | [] => data
  | part :: rest =>
      match data with
      | JDict d =>
          match d !! part with
          | Some v => get_loop v rest
          | None => JNull
          end
      | _ => JNull
      end
  end.

Definition get_nested (data : json) (key : string) : json :=
  let parts := str_split dot key in
  get_loop data parts.

(** ** The nested-path mutator *)

(** The last two statements of [set_nested], on the node the loop stopped
    at; [last_key] is [parts[-1]], which raises on an empty list. *)
Definition set_last (data : json) (last_key : option string) (value : json)
  : result json :=
  match last_key with
  | None => Raise IndexError
  | Some last_key =>
      present ← py_in last_key data;
      if negb present then setitem data last_key value else Ok data
  end.

(** The loop of [set_nested] over [parts[:-1]], followed by the final write.
    The result is the node [data] after the in-place updates below it. *)
Fixpoint set_loop (data : json) (inits : list string)
    (last_key : option string) (value : json) : result json :=
  match inits with
  | [] => set_last data last_key value
  | part :: rest =>
      present ← py_in part data;
      fresh ← (if negb present then Ok true
               else (v ← getitem data part; Ok (negb (is_dict v))));
      data ← (if fresh : bool then setitem data part (JDict ∅) else Ok data);
      child ← getitem data part;
      child ← set_loop child rest last_key value;
      setitem data part child
  end.

Definition set_parts (data : json) (parts : list string) (value : json)
  : result json :=
  set_loop data (removelast parts) (last parts) value.

Definition set_nested (data : json) (key : string) (value : json)
  : result json :=
  let parts := str_split dot key in
  set_parts data parts value.

(** ** Builtins left abstract *)

Class Builtins : Type := {
  py_str : json → string;        (* str(v), for a value that is not a string *)
  str_title : string → string;   (* s.title() *)
  str_strip : string → string;   (* s.strip() *)
}.

(** ** The file system and the console

    The script reads one file as lines of text and reads and writes the
    others through [json].  A text file is the list of lines that iterating
    over it yields.  A JSON file is [Some v] when [json.load] returns [v]
    on it and [None] when it exists and [open] or [json.load] raises;
    [json.dump] stores the value ([indent] and [sort_keys] only fix the
    text of the file, which [json.load] reads back to the same value).  A
    path that a map does not bind does not exist.  Writing always succeeds. *)

Record world : Type := World {
  text_files : gmap string (list string);
  json_files : gmap string (option json);
  stdout : list string;
}.

Definition print (line : string) (w : world) : world :=
  World (text_files w) (json_files w) (stdout w ++ [line]).

Definition json_load (file : option json) : result json :=
  match file with
  | Some v => Ok v
  | None => Raise JSONDecodeError
  end.

Definition json_dump (path : string) (data : json) (w : world) : world :=
  World (text_files w) (<[path := Some data]> (json_files w)) (stdout w).

(** How a top-level operation ends: normally, or with an exception that
    terminates the run; either way with the world it leaves behind. *)
Inductive outcome : Type :=
  | Done (w : world)
  | Raised (e : exn) (w : world).

Fixpoint str_chars (s : string) : list string :=
  match s with
  | EmptyString => []
  | String c s' => String c "" :: str_chars s'
  end.

(** [for x in v]: the elements of a list, the keys of a dictionary, the
    characters of a string. *)
Definition py_iter (v : json) : result (list json) :=
  match v with
  | JList l => Ok l
  | JDict d => Ok (JStr <$> (map_to_list d).*1)
  | JStr s => Ok (JStr <$> str_chars s)
  | _ => Raise TypeError
  end.

(** [len(v)] *)
Definition py_len (v : json) : result nat :=
  match v with
  | JList l => Ok (List.length l)
  | JDict d => Ok (size d)
  | JStr s => Ok (String.length s)
  | _ => Raise TypeError
  end.

Section Script.
Context `{Builtins}.

(** ** The backend catalog transformer *)

(** [f"{v}"] *)
Definition format_value (v : json) : string :=
  match v with
  | JStr s => s
  | _ => py_str v
  end.

(** The body of the loop of [process_backend]: the message after
    [msg["translation"] = f"[DE] {msg['message']}"]. *)
Definition translate_message (msg : json) : result json :=
  text ← getitem msg "message";
  setitem msg "translation" (JStr ("[DE] " ++ format_value text)).

Fixpoint translate_all (msgs : list json) : result (list json) :=
  match msgs with
  | [] => Ok []
  | msg :: rest =>
      msg ← translate_message msg;
      rest ← translate_all rest;
      Ok (msg :: rest)
  end.

(** The loop of [process_backend] on the value of [data["messages"]].  The
    elements of a list are the message objects themselves, updated in
    place; the keys of a dictionary and the characters of a string are
    strings, on which the body raises. *)
Definition translate_messages (messages : json) : result json :=
  items ← py_iter messages;
  items ← translate_all items;
  Ok (match messages with
      | JList _ => JList items
      | _ => messages
      end).

(** Lines 16 to 19 of the script, on the loaded catalog. *)
Definition backend_transform (data : json) : result json :=
  data ← setitem data "language" (JStr "de");
  messages ← getitem data "messages";
  messages ← translate_messages messages;
  setitem data "messages" messages.

Definition backend_en_path : string := "locales/en/out.gotext.json".
Definition backend_de_path : string := "locales/de/messages.gotext.json".

Definition process_backend (w : world) : outcome :=
  let en_path := backend_en_path in
  let de_path := backend_de_path in
  match json_files w !! en_path with
  | None => Done (print ("File not found: " ++ en_path) w)
  | Some file =>
      match (data ← json_load file; backend_transform data) with
      | Raise e => Raised e w
      | Ok data =>
          let w := json_dump de_path data w in
          match (messages ← getitem data "messages"; py_len messages) with
          | Raise e => Raised e w
          | Ok n =>
              Done (print ("Generated " ++ de_path ++ " with " ++ pretty n
                           ++ " entries.") w)
          end
      end
  end.

(** ** The frontend key-tree transformer *)

Definition frontend_keys_path : string := "ui/src/locales/keys_found.txt".
Definition frontend_en_path : string := "ui/src/locales/en.json".
Definition frontend_de_path : string := "ui/src/locales/de.json".

(** [[line.strip() for line in f if line.strip()]] *)
Definition read_keys (lines : list string) : list string :=
  str_strip <$> filter (λ line, str_strip line ≠ "") lines.

(** [key.split(".")[-1].replace("_", " ").title()] *)
Definition display_name (key : string) : result string :=
  match last (str_split dot key) with
  | None => Raise IndexError
  | Some part => Ok (str_title (str_replace "_" " " part))
  end.

(** The body of the loop of [process_frontend]. *)
Definition frontend_step (en_data de_data : json) (key : string)
  : result (json * json) :=
  let existing_val := get_nested en_data key in
  display ← display_name key;
  '(en_data, en_val) ←
    (if is_none existing_val then
       en_data ← set_nested en_data key (JStr display);
       Ok (en_data, JStr display)
     else Ok (en_data, existing_val));
  match en_val with
  | JStr s =>
      de_data ← set_nested de_data key (JStr ("[DE] " ++ s));
      Ok (en_data, de_data)
  | _ => Ok (en_data, de_data)
  end.

Fixpoint frontend_loop (keys : list string) (en_data de_data : json)
  : result (json * json) :=
  match keys with
  | [] => Ok (en_data, de_data)
  | key :: rest =>
      '(en_data, de_data) ← frontend_step en_data de_data key;
      frontend_loop rest en_data de_data
  end.

(** Lines 59 to 65: the source tree the run starts from. *)
Definition load_en (w : world) : json :=
  match json_files w !! frontend_en_path with
  | Some file =>
      match json_load file with
      | Ok v => v
      | Raise _ => JDict ∅
      end
  | None => JDict ∅
  end.

Definition process_frontend (w : world) : outcome :=
  let keys_path := frontend_keys_path in
  let en_path := frontend_en_path in
  let de_path := frontend_de_path in
  match text_files w !! keys_path with
  | None => Done (print ("File not found: " ++ keys_path) w)
  | Some lines =>
      let keys := read_keys lines in
      let en_data := load_en w in
      let de_data := JDict ∅ in
      match frontend_loop keys en_data de_data with
      | Raise e => Raised e w
      | Ok (en_data, de_data) =>
          let w := json_dump en_path en_data w in
          let w := json_dump de_path de_data w in
          Done (print ("Updated " ++ en_path ++ " and " ++ de_path ++ " with "
                       ++ pretty (List.length keys) ++ " keys.") w)
      end
  end.

End Script.

(** ** An instance of the builtins for ASCII text *)

Definition is_space (c : ascii) : bool :=
  let n := nat_of_ascii c in
  Nat.leb 9 n && Nat.leb n 13 || Nat.leb 28 n && Nat.leb n 32.

Definition is_upper (c : ascii) : bool :=
  let n := nat_of_ascii c in Nat.leb 65 n && Nat.leb n 90.

Definition is_lower (c : ascii) : bool :=
  let n := nat_of_ascii c in Nat.leb 97 n && Nat.leb n 122.

Definition to_upper (c : ascii) : ascii :=
  if is_lower c then ascii_of_nat (nat_of_ascii c - 32) else c.

Definition to_lower (c : ascii) : ascii :=
  if is_upper c then ascii_of_nat (nat_of_ascii c + 32) else c.

(** [s.title()]: a letter that follows a letter is lowered, any other
    letter is raised; [prev] tells whether the previous character is a
    letter. *)
Fixpoint title_from (prev : bool) (s : string) : string :=
  match s with
  | EmptyString => EmptyString
  | String c s' =>
      if is_upper c || is_lower c then
        String (if prev then to_lower c else to_upper c) (title_from true s')
      else String c (title_from false s')
  end.

Definition ascii_title (s : string) : string := title_from false s.

Fixpoint str_lstrip (s : string) : string :=
  match s with
  | EmptyString => EmptyString
  | String c s' => if is_space c then str_lstrip s' else s
  end.

Fixpoint str_rstrip (s : string) : string :=
  match s with
  | EmptyString => EmptyString
  | String c s' =>
      match str_rstrip s' with
      | EmptyString => if is_space c then EmptyString else String c EmptyString
      | r => String c r
      end
  end.

Definition ascii_strip (s : string) : string := str_rstrip (str_lstrip s).

(** The text of the scalars; the examples format no float and no
    container, whose text is not fixed by this model. *)
Definition scalar_str (v : json) : string :=
  match v with
  | JNull => "None"
  | JBool true => "True"
  | JBool false => "False"
  | JInt z => pretty z
  | JStr s => s
  | JFloat _ => "<float>"
  | JList _ => "<list>"
  | JDict _ => "<dict>"
  end.

Definition ascii_builtins : Builtins :=
  {| py_str := scalar_str; str_title := ascii_title; str_strip := ascii_strip |}.

(** * Vocabulary of the properties

    The definitions below are not code of the script: they are the notions
    in which its properties are stated and proved. *)

(** [sep.join(parts)] *)
Fixpoint str_join (sep : ascii) (parts : list string) : string :=
  match parts with
  | [] => ""
  | [p] => p
  | p :: rest => p ++ String sep (str_join sep rest)
  end.

(** [c in s], for a character [c]. *)
Fixpoint str_mem (c : ascii) (s : string) : bool :=
  match s with
  | EmptyString => false
  | String a s' => ascii_eqb a c || str_mem c s'
  end.

(** The value stored under a path, when every segment is a key of the
    mapping reached so far. *)
Fixpoint lookup_path (data : json) (parts : list string) : option json :=
  match parts with
  | [] => Some data
  | part :: rest =>
      match data with
      | JDict d => d !! part ≫= λ v, lookup_path v rest
      | _ => None
      end
  end.

(** The mapping under [part] that the loop of [set_nested] moves into:
    the one stored there, or the fresh one it stores there first. *)
Definition child_dict (d : gmap string json) (part : string)
  : gmap string json :=
  match d !! part with
  | Some (JDict c) => c
  | _ => ∅
  end.

(** What [set_nested] makes of a mapping (for a path with a segment). *)
Fixpoint merged (d : gmap string json) (parts : list string) (value : json)
  : gmap string json :=
  match parts with
  | [] => d
  | part :: rest =>
      match rest with
      | [] =>
          match d !! part with
          | Some _ => d
          | None => <[part := value]> d
          end
      | _ :: _ => <[part := JDict (merged (child_dict d part) rest value)]> d
      end
  end.

(** [q] addresses an intermediate position of the path [parts]. *)
Definition intermediate (q parts : list string) : Prop :=
  q `prefix_of` parts ∧ q ≠ parts.

(** Every segment of the path is found, one mapping below the other. *)
Inductive resolves : json → list string → json → Prop :=
  | resolves_end data : resolves data [] data
  | resolves_step d part v rest r :
      d !! part = Some v → resolves v rest r →
      resolves (JDict d) (part :: rest) r.

(** Some segment is the first one that is missing, or that is looked up in
    a node that is not a mapping. *)
Inductive blocked : json → list string → Prop :=
  | blocked_not_mapping data part rest :
      is_dict data = false → blocked data (part :: rest)
  | blocked_missing d part rest :
      d !! part = None → blocked (JDict d) (part :: rest)
  | blocked_below d part v rest :
      d !! part = Some v → blocked v rest →
      blocked (JDict d) (part :: rest).

(** A message the loop body accepts: a mapping with a [message] field. *)
Definition has_message (msg : json) : bool :=
  match msg with
  | JDict m => bool_decide (is_Some (m !! "message"))
  | _ => false
  end.

(** The value of [messages] over which the loop runs to its end: a list
    of messages, or a mapping or a string with nothing to iterate over. *)
Definition iterable_messages (messages : json) : bool :=
  match messages with
  | JList l => forallb has_message l
  | JDict m => bool_decide (m = ∅)
  | JStr s => bool_decide (s = "")
  | _ => false
  end.

(** The catalog [backend_transform] returns for the mapping [d] whose
    messages become [messages']. *)
Definition catalog_out (d : gmap string json) (messages' : json)
  : gmap string json :=
  <["messages" := messages']> (<["language" := JStr "de"]> d).

(** A catalog file on which [process_backend] raises. *)
Definition malformed_catalog (file : option json) : bool :=
  match file with
  | None => true
  | Some (JDict d) =>
      match d !! "messages" with
      | None => true
      | Some messages => negb (iterable_messages messages)
      end
  | Some _ => true
  end.

(** The line [process_backend] prints at its end. *)
Definition backend_report (n : nat) : string :=
  "Generated " ++ backend_de_path ++ " with " ++ pretty n ++ " entries.".

(** The target tree after the loop body. *)
Definition de_after (de : gmap string json) (en_val : json) (key : string)
  : gmap string json :=
  match en_val with
  | JStr s => merged de (str_split dot key) (JStr ("[DE] " ++ s))
  | _ => de
  end.

(** The path of the key holds no stored [None]. *)
Definition no_stored_none (data : json) (key : string) : Prop :=
  lookup_path data (str_split dot key) ≠ Some JNull.

(** The line [process_frontend] prints at its end. *)
Definition frontend_report (n : nat) : string :=
  "Updated " ++ frontend_en_path ++ " and " ++ frontend_de_path ++ " with "
  ++ pretty n ++ " keys.".

Section Vocabulary.
Context `{Builtins}.

(** What the loop body makes of a message. *)
Definition translated (msg msg' : json) : Prop :=
  ∃ m text, msg = JDict m ∧ m !! "message" = Some text ∧
            msg' = JDict (<["translation" := JStr ("[DE] " ++ format_value text)]> m).

(** The label of a key: the text [display_name] returns. *)
Definition display_text (key : string) : string :=
  str_title (str_replace "_" " " (default "" (last (str_split dot key)))).

(** The part of the loop body that works on the source tree. *)
Definition en_step (en_data : json) (key : string) : result json :=
  if is_none (get_nested en_data key)
  then set_nested en_data key (JStr (display_text key))
  else Ok en_data.

(** The effective source value of a key. *)
Definition en_value (en_data : json) (key : string) : json :=
  if is_none (get_nested en_data key)
  then JStr (display_text key)
  else get_nested en_data key.

(** The loop of [process_frontend], as far as the source tree goes. *)
Fixpoint en_loop (keys : list string) (en_data : json) : result json :=
  match keys with
  | [] => Ok en_data
  | key :: rest => en_data ← en_step en_data key; en_loop rest en_data
  end.

(** The source tree after the loop body, when it is a mapping. *)
Definition en_after (en : gmap string json) (key : string)
  : gmap string json :=
  if is_none (get_nested (JDict en) key)
  then merged en (str_split dot key) (JStr (display_text key))
  else en.

End Vocabulary.

(** Inputs on which the script is run below. *)

Definition hello_message : gmap string json :=
  {[ "id" := JStr "greeting"; "message" := JStr "Hello";
     "translation" := JStr "" ]}.

Definition hello_catalog : gmap string json :=
  {[ "language" := JStr "en"; "messages" := JList [JDict hello_message] ]}.

Definition backend_world (file : option json) : world :=
  World ∅ {[ backend_en_path := file ]} [].

Definition frontend_world (lines : list string) (file : option json) : world :=
  World {[ frontend_keys_path := lines ]} {[ frontend_en_path := file ]} [].

(** ** The entry point, and further vocabulary *)

(** Whether [set_nested] returns normally on the root [data] for the key:
    always on a mapping; on a list or a string only when the key has no dot
    and [key in data] holds, so that nothing is assigned. *)
Definition accepts_key (data : json) (key : string) : bool :=
  match data with
  | JDict _ => true
  | JList l =>
      negb (str_mem dot key) &&
      existsb (fun v => match v with
                        | JStr s => bool_decide (s = key)
                        | _ => false
                        end) l
  | JStr s => negb (str_mem dot key) && str_contains key s
  | _ => false
  end.

(** Two messages that are equal, or are mappings that differ in the
    [translation] field at most. *)
Definition same_but_translation (msg1 msg2 : json) : Prop :=
  msg1 = msg2 ∨
  ∃ m1 m2, msg1 = JDict m1 ∧ msg2 = JDict m2 ∧
           delete "translation" m1 = delete "translation" m2.

(** The target tree [de] follows the source tree [en]: a mapping in [de]
    sits where [en] has a mapping, and a value of [de] that is not a
    mapping is the tagged copy of the string [en] has at the same path, or
    a tagged string where [en] stores [None]. *)
Definition mirrors (en de : gmap string json) : Prop :=
  ∀ q x, lookup_path (JDict de) q = Some x →
    (is_dict x = true ∧ ∃ c, lookup_path (JDict en) q = Some (JDict c)) ∨
    (∃ s, x = JStr ("[DE] " ++ s) ∧
          (lookup_path (JDict en) q = Some (JStr s) ∨
           lookup_path (JDict en) q = Some JNull)).

(** Every key of [keys] under which [en] has a string is present in [de]. *)
Definition covered (keys : list string) (en de : gmap string json) : Prop :=
  ∀ k s, k ∈ keys → lookup_path (JDict en) (str_split dot k) = Some (JStr s) →
         is_Some (lookup_path (JDict de) (str_split dot k)).

Section Entry.
Context `{Builtins}.

(** Every value of [en] is a mapping, or was in [en0] at the same path, or
    is the label of a key of [keys] at the path of that key. *)
Definition originates (keys : list string) (en0 en : gmap string json)
  : Prop :=
  ∀ q x, lookup_path (JDict en) q = Some x →
    is_dict x = true ∨ lookup_path (JDict en0) q = Some x ∨
    ∃ k, k ∈ keys ∧ str_split dot k = q ∧ x = JStr (display_text k).

(** Lines 99 to 101: the two operations, one after the other; an exception
    that leaves the first ends the run. *)
Definition main (w : world) : outcome :=
  match process_backend w with
  | Done w => process_frontend w
  | Raised e w => Raised e w
  end.

(** Both trees after the loop body, when both are mappings. *)
Definition trees_step (trees : gmap string json * gmap string json)
    (key : string) : gmap string json * gmap string json :=
  (en_after trees.1 key,
   de_after trees.2 (en_value (JDict trees.1) key) key).

(** Both trees after the loop of [process_frontend]. *)
Definition trees_after (keys : list string) (en de : gmap string json)
  : gmap string json * gmap string json :=
  foldl trees_step (en, de) keys.

End Entry.

(** * Properties *)

(** ** Splitting a key *)

Lemma str_split_nonempty (sep : ascii) (s : string) : str_split sep s ≠ [].
Proof.
  destruct s as [|c s]; simpl; [done|].
  destruct (ascii_eqb c sep); [done|].
  by destruct (str_split sep s).
Qed.

Lemma str_join_split (sep : ascii) (s : string) :
  str_join sep (str_split sep s) = s.
Proof.
  induction s as [|c s IH]; [done|].
  simpl. destruct (ascii_eqb c sep) eqn:E.
  - apply bool_decide_eq_true in E as ->.
    pose proof (str_split_nonempty sep s).
    simpl. destruct (str_split sep s) as [|p ps]; [done|].
    by rewrite IH.
  - pose proof (str_split_nonempty sep s).
    destruct (str_split sep s) as [|p ps]; [done|].
    rewrite <- IH. simpl. by destruct ps.
Qed.

Lemma str_split_no_sep (sep : ascii) (s part : string) :
  part ∈ str_split sep s → str_mem sep part = false.
Proof.
  revert part. induction s as [|c s IH]; intros part; simpl.
  - by intros ->%list_elem_of_singleton.
  - destruct (ascii_eqb c sep) eqn:E.
    + intros [->|Hin]%elem_of_cons; [done|]. by apply IH.
    + pose proof (str_split_nonempty sep s).
      destruct (str_split sep s) as [|p ps]; [done|].
      intros [->|Hin]%elem_of_cons.
      * simpl. rewrite E. apply IH. by left.
      * apply IH. by right.
Qed.

(** ** Paths in a tree *)

Lemma get_loop_lookup_path (data : json) (parts : list string) :
  get_loop data parts = default JNull (lookup_path data parts).
Proof.
  revert data. induction parts as [|part rest IH]; intros data; [done|].
  destruct data; simpl; try done.
  destruct (d !! part) as [v|]; simpl; [apply IH | done].
Qed.

Lemma get_loop_not_none (data : json) (parts : list string) :
  get_loop data parts ≠ JNull →
  ∃ v, lookup_path data parts = Some v ∧ v ≠ JNull.
Proof.
  rewrite get_loop_lookup_path.
  destruct (lookup_path data parts) as [v|]; simpl; [eauto | done].
Qed.

Lemma lookup_path_not_dict (data : json) (parts : list string) (v : json) :
  is_dict data = false → lookup_path data parts = Some v →
  parts = [] ∧ v = data.
Proof.
  destruct parts as [|p ps]; simpl.
  - intros _ [= <-]. done.
  - by destruct data.
Qed.

(** ** The mutator on a mapping *)

Lemma set_last_dict (d : gmap string json) (k : string) (value : json) :
  set_last (JDict d) (Some k) value = Ok (JDict (merged d [k] value)).
Proof.
  unfold set_last. simpl.
  by destruct (d !! k) as [v|] eqn:E.
Qed.

Lemma set_loop_dict_cons (d : gmap string json) (part : string)
    (rest : list string) (last_key : option string) (value : json) :
  set_loop (JDict d) (part :: rest) last_key value =
  (child ← set_loop (JDict (child_dict d part)) rest last_key value;
   Ok (JDict (<[part := child]> d))).
Proof.
  unfold child_dict. simpl.
  destruct (d !! part) as [v|] eqn:E; simpl.
  - destruct v; simpl; rewrite ?lookup_insert_eq, ?E; simpl;
      match goal with
      | |- context [set_loop ?c rest last_key value] =>
          destruct (set_loop c rest last_key value); simpl;
          by rewrite ?insert_insert_eq
      end.
  - rewrite lookup_insert_eq. simpl.
    destruct (set_loop (JDict ∅) rest last_key value); simpl;
      by rewrite ?insert_insert_eq.
Qed.

Lemma set_parts_dict (d : gmap string json) (parts : list string) (value : json) :
  parts ≠ [] → set_parts (JDict d) parts value = Ok (JDict (merged d parts value)).
Proof.
  revert d. induction parts as [|part rest IH]; intros d Hne; [done|].
  destruct rest as [|part' rest].
  - apply set_last_dict.
  - unfold set_parts in *.
    change (removelast (part :: part' :: rest))
      with (part :: removelast (part' :: rest)).
    change (last (part :: part' :: rest)) with (last (part' :: rest)).
    rewrite set_loop_dict_cons, IH; done.
Qed.

Lemma child_dict_lookup (d c : gmap string json) (part : string) :
  d !! part = Some (JDict c) → child_dict d part = c.
Proof. unfold child_dict. by intros ->. Qed.

(** A path that is present: nothing is created and nothing is written. *)
Lemma merged_present (d : gmap string json) (parts : list string)
    (value x : json) :
  parts ≠ [] → lookup_path (JDict d) parts = Some x →
  merged d parts value = d.
Proof.
  revert d. induction parts as [|part rest IH]; intros d Hne; [done|].
  simpl. destruct (d !! part) as [c|] eqn:E; simpl; [|done].
  destruct rest as [|part' rest]; [done|].
  intros Hc. destruct c; try done.
  rewrite (child_dict_lookup _ _ _ E), IH; [|done|done].
  by apply insert_id.
Qed.

(** A path that is not present: afterwards it holds the value. *)
Lemma merged_absent (d : gmap string json) (parts : list string) (value : json) :
  parts ≠ [] → lookup_path (JDict d) parts = None →
  lookup_path (JDict (merged d parts value)) parts = Some value.
Proof.
  revert d. induction parts as [|part rest IH]; intros d Hne; [done|].
  destruct rest as [|part' rest].
  - simpl. destruct (d !! part) as [c|] eqn:E; simpl; [done|].
    intros _. by rewrite lookup_insert_eq.
  - intros Hnone.
    change (merged d (part :: part' :: rest) value)
      with (<[part := JDict (merged (child_dict d part) (part' :: rest) value)]> d).
    change (lookup_path (JDict ?m) (part :: ?r))
      with (m !! part ≫= λ v, lookup_path v r).
    rewrite lookup_insert_eq. simpl option_bind.
    change (lookup_path (JDict d) (part :: part' :: rest))
      with (d !! part ≫= λ v, lookup_path v (part' :: rest)) in Hnone.
    unfold child_dict.
    destruct (d !! part) as [c|] eqn:E; simpl in Hnone.
    + destruct c; by apply IH.
    + by apply IH.
Qed.

(** A stored value that is not a mapping stays where it is, unless it sits
    at an intermediate position of the path. *)
Lemma merged_frame (d : gmap string json) (parts q : list string)
    (value x : json) :
  lookup_path (JDict d) q = Some x → is_dict x = false →
  ¬ (q `prefix_of` parts ∧ q ≠ parts) →
  lookup_path (JDict (merged d parts value)) q = Some x.
Proof.
  revert d q. induction parts as [|part rest IH]; intros d q Hq Hx Hpre; [done|].
  destruct q as [|q0 qr]; [by simplify_eq/= |].
  change (lookup_path (JDict ?m) (q0 :: ?r))
    with (m !! q0 ≫= λ v, lookup_path v r) in *.
  destruct (d !! q0) as [c|] eqn:E; [|done]. simpl in Hq.
  destruct (decide (part = q0)) as [->|Hne].
  - destruct rest as [|part' rest].
    + simpl. by rewrite E; simpl; rewrite E.
    + change (merged d (q0 :: part' :: rest) value)
        with (<[q0 := JDict (merged (child_dict d q0) (part' :: rest) value)]> d).
      rewrite lookup_insert_eq. simpl.
      destruct (is_dict c) eqn:Hc.
      * destruct c; try done.
        rewrite (child_dict_lookup _ _ _ E).
        apply IH; [done|done|].
        intros [Hp Hn]. apply Hpre. split; [by apply prefix_cons | congruence].
      * destruct (lookup_path_not_dict _ _ _ Hc Hq) as [-> ->].
        exfalso. apply Hpre. split; [|done].
        apply prefix_cons, prefix_nil.
  - assert (merged d (part :: rest) value !! q0 = Some c) as ->; [|done].
    destruct rest as [|part' rest]; simpl.
    + destruct (d !! part); [done|]. by rewrite lookup_insert_ne.
    + by rewrite lookup_insert_ne.
Qed.

(** No [None] is stored by a merge of a value that holds none. *)
Lemma merged_no_new_none (d : gmap string json) (parts q : list string)
    (value : json) :
  (∀ r, lookup_path value r ≠ Some JNull) →
  lookup_path (JDict (merged d parts value)) q = Some JNull →
  lookup_path (JDict d) q = Some JNull.
Proof.
  intros Hv. revert d q.
  induction parts as [|part rest IH]; intros d q; [done|].
  destruct q as [|q0 qr]; [done|].
  change (lookup_path (JDict ?m) (q0 :: ?r))
    with (m !! q0 ≫= λ v, lookup_path v r).
  destruct (decide (part = q0)) as [->|Hne].
  - destruct rest as [|part' rest].
    + simpl. destruct (d !! q0) as [c|] eqn:E; simpl; rewrite ?E; [done|].
      rewrite lookup_insert_eq. simpl.
      intros Hq. by destruct (Hv qr).
    + change (merged d (q0 :: part' :: rest) value)
        with (<[q0 := JDict (merged (child_dict d q0) (part' :: rest) value)]> d).
      rewrite lookup_insert_eq. simpl. intros Hq.
      destruct qr as [|q1 qr]; [done|].
      apply IH in Hq. unfold child_dict in Hq.
      destruct (d !! q0) as [c|] eqn:E; [|done].
      destruct c; try done.
  - assert (merged d (part :: rest) value !! q0 = d !! q0) as ->; [|done].
    destruct rest as [|part' rest]; simpl.
    + destruct (d !! part); [done|]. by rewrite lookup_insert_ne.
    + by rewrite lookup_insert_ne.
Qed.

(** A path that is present stays present. *)
Lemma merged_keeps_paths (d : gmap string json) (parts q : list string)
    (value : json) :
  is_Some (lookup_path (JDict d) q) →
  is_Some (lookup_path (JDict (merged d parts value)) q).
Proof.
  revert d q. induction parts as [|part rest IH]; intros d q; [done|].
  destruct q as [|q0 qr]; [done|].
  change (lookup_path (JDict ?m) (q0 :: ?r))
    with (m !! q0 ≫= λ v, lookup_path v r).
  destruct (decide (part = q0)) as [->|Hne].
  - destruct rest as [|part' rest].
    + simpl. by destruct (d !! q0) as [c|] eqn:E; simpl; rewrite ?E.
    + change (merged d (q0 :: part' :: rest) value)
        with (<[q0 := JDict (merged (child_dict d q0) (part' :: rest) value)]> d).
      rewrite lookup_insert_eq. simpl.
      destruct (d !! q0) as [c|] eqn:E; simpl; [|by intros [? ?]].
      destruct (is_dict c) eqn:Hc.
      * destruct c; try done. rewrite (child_dict_lookup _ _ _ E). apply IH.
      * intros [x Hx]. by destruct (lookup_path_not_dict _ _ _ Hc Hx) as [-> _].
  - assert (merged d (part :: rest) value !! q0 = d !! q0) as ->; [|done].
    destruct rest as [|part' rest]; simpl.
    + destruct (d !! part); [done|]. by rewrite lookup_insert_ne.
    + by rewrite lookup_insert_ne.
Qed.

(** A value that is not a mapping at an intermediate position makes way
    for a mapping. *)
Lemma merged_intermediate (d : gmap string json) (parts q : list string)
    (value x : json) :
  lookup_path (JDict d) q = Some x → is_dict x = false →
  intermediate q parts →
  ∃ c, lookup_path (JDict (merged d parts value)) q = Some (JDict c).
Proof.
  revert d q. induction parts as [|part rest IH]; intros d q Hq Hx [Hpre Hne].
  { apply prefix_nil_inv in Hpre. by subst. }
  destruct q as [|q0 qr]; [by simplify_eq/= |].
  apply prefix_cons_inv_1 in Hpre as Hhd. subst q0.
  apply prefix_cons_inv_2 in Hpre.
  destruct rest as [|part' rest].
  { apply prefix_nil_inv in Hpre. by subst. }
  change (merged d (part :: part' :: rest) value)
    with (<[part := JDict (merged (child_dict d part) (part' :: rest) value)]> d).
  change (lookup_path (JDict ?m) (part :: ?r))
    with (m !! part ≫= λ v, lookup_path v r) in *.
  rewrite lookup_insert_eq. simpl.
  destruct (d !! part) as [c|] eqn:E; [|done]. simpl in Hq.
  destruct qr as [|q1 qr]; [by eexists|].
  destruct c; try done.
  rewrite (child_dict_lookup _ _ _ E).
  apply IH; [done|done|]. split; [done | congruence].
Qed.

(** ** The accessor, as the specification words it *)

Lemma get_loop_spec (data : json) (parts : list string) :
  resolves data parts (get_loop data parts) ∨
  (blocked data parts ∧ get_loop data parts = JNull).
Proof.
  revert data. induction parts as [|part rest IH]; intros data.
  - left. constructor.
  - destruct (is_dict data) eqn:Hd.
    + destruct data; try done. simpl.
      destruct (d !! part) as [v|] eqn:E.
      * destruct (IH v) as [Hr|[Hb Hn]].
        -- left. by econstructor.
        -- right. split; [by eapply blocked_below | done].
      * right. split; [by apply blocked_missing | done].
    + right. split; [by constructor | by destruct data].
Qed.

Lemma resolves_lookup_path (data : json) (parts : list string) (v : json) :
  resolves data parts v ↔ lookup_path data parts = Some v.
Proof.
  split.
  - induction 1 as [|d part v rest r E _ IH]; [done|].
    simpl. by rewrite E.
  - revert data. induction parts as [|part rest IH]; intros data; simpl.
    + intros [= <-]. constructor.
    + destruct data; try done.
      destruct (d !! part) as [c|] eqn:E; [|done]. simpl.
      intros Hc. econstructor; eauto.
Qed.

Lemma blocked_lookup_path (data : json) (parts : list string) :
  blocked data parts ↔ lookup_path data parts = None.
Proof.
  split.
  - induction 1 as [data part rest Hd|d part rest E|d part v rest E _ IH]; simpl.
    + by destruct data.
    + by rewrite E.
    + by rewrite E.
  - revert data. induction parts as [|part rest IH]; intros data; [done|].
    destruct (is_dict data) eqn:Hd; [|intros _; by constructor].
    destruct data; try done. simpl.
    destruct (d !! part) as [c|] eqn:E; simpl.
    + intros Hc. eapply blocked_below; eauto.
    + intros _. by apply blocked_missing.
Qed.

(** C8: [get_nested] splits the path on ['.'] (the segments joined by dots
    are the path, and no segment holds a dot), descends one segment at a
    time, and returns the value found when every segment is found, or
    [None] when some segment is the first that is missing or that is looked
    up in a node that is not a mapping.  The function is total: it raises
    for no tree and no path. *)
Theorem get_nested_contract (tree : json) (path : string) :
  let parts := str_split dot path in
  str_join dot parts = path ∧
  Forall (λ part, str_mem dot part = false) parts ∧
  (resolves tree parts (get_nested tree path) ∨
   (blocked tree parts ∧ get_nested tree path = JNull)).
Proof.
  simpl. split; [apply str_join_split|]. split.
  - apply Forall_forall. intros part. apply str_split_no_sep.
  - apply get_loop_spec.
Qed.

(** ** Get and set together *)

Lemma lookup_path_dict (data : json) (parts : list string) (v : json) :
  parts ≠ [] → lookup_path data parts = Some v → ∃ d, data = JDict d.
Proof.
  destruct parts as [|p ps]; [done|]. intros _. simpl.
  destruct data; try done. by eexists.
Qed.

(** C10: when [get_nested] finds a value that is not [None] under the
    path, [set_nested] returns normally and leaves the whole tree as it
    is: no node is replaced and nothing is written. *)
Theorem set_nested_present_unchanged (tree : json) (path : string)
    (value : json) :
  get_nested tree path ≠ JNull →
  set_nested tree path value = Ok tree.
Proof.
  unfold get_nested, set_nested.
  pose proof (str_split_nonempty dot path) as Hne.
  intros (v & Hv & _)%get_loop_not_none.
  destruct (lookup_path_dict _ _ _ Hne Hv) as [d ->].
  rewrite set_parts_dict by done.
  by rewrite (merged_present _ _ _ _ Hne Hv).
Qed.

Lemma set_nested_present_unchanged_witness :
  get_nested (JDict {[ "home" := JDict {[ "title" := JStr "Welcome" ]} ]})
    "home.title" ≠ JNull ∧
  set_nested (JDict {[ "home" := JDict {[ "title" := JStr "Welcome" ]} ]})
    "home.title" (JStr "Title")
  = Ok (JDict {[ "home" := JDict {[ "title" := JStr "Welcome" ]} ]}).
Proof.
  split; [by vm_compute|].
  apply set_nested_present_unchanged. by vm_compute.
Defined.

(** C9, as stated, fails on a path that holds a stored [None]: the lookup
    returns [None], the key is present, nothing is written, and the lookup
    still returns [None]. *)
Lemma get_after_set_stored_none :
  let tree := JDict {[ "a" := JNull ]} in
  get_nested tree "a" = JNull ∧
  ∃ tree', set_nested tree "a" (JStr "x") = Ok tree' ∧
           get_nested tree' "a" ≠ JStr "x".
Proof. split; [done|]. eexists. split; [reflexivity|]. by vm_compute. Qed.

(** C9, amended: for every mapping, path and value, if [get_nested]
    returns [None] and the path does not hold a stored [None] (so a segment
    is missing, or an intermediate node is not a mapping), then
    [set_nested] returns normally and [get_nested] then returns exactly the
    value. *)
Theorem get_after_set (d : gmap string json) (path : string) (value : json) :
  get_nested (JDict d) path = JNull →
  lookup_path (JDict d) (str_split dot path) ≠ Some JNull →
  ∃ tree', set_nested (JDict d) path value = Ok tree' ∧
           get_nested tree' path = value.
Proof.
  unfold get_nested, set_nested.
  pose proof (str_split_nonempty dot path) as Hne.
  rewrite get_loop_lookup_path. intros Hget Hnn.
  rewrite set_parts_dict by done. eexists. split; [done|].
  rewrite get_loop_lookup_path, merged_absent; [done|done|].
  destruct (lookup_path (JDict d) (str_split dot path)); [|done].
  simpl in Hget. by subst.
Qed.

Lemma get_after_set_witness :
  get_nested (JDict {[ "home" := JStr "x" ]}) "home.title" = JNull ∧
  lookup_path (JDict {[ "home" := JStr "x" ]}) (str_split dot "home.title")
    ≠ Some JNull ∧
  ∃ tree', set_nested (JDict {[ "home" := JStr "x" ]}) "home.title" (JStr "Title")
           = Ok tree' ∧
           get_nested tree' "home.title" = JStr "Title".
Proof.
  split; [by vm_compute|]. split; [by vm_compute|].
  apply get_after_set; by vm_compute.
Defined.

(** C2, as stated, fails when a value that is not a mapping sits at an
    intermediate position of the path: that existing value is overwritten
    by a mapping. *)
Lemma set_nested_overwrites_intermediate :
  ¬ (∀ (tree : json) (path : string) (value : json) (tree' : json)
       (q : string) (x : json),
       set_nested tree path value = Ok tree' →
       get_nested tree q = x → x ≠ JNull → is_dict x = false →
       get_nested tree' q = x).
Proof.
  intros Hclaim.
  specialize (Hclaim (JDict {[ "a" := JStr "hello" ]}) "a.b" (JStr "x")
                (JDict {[ "a" := JDict {[ "b" := JStr "x" ]} ]})
                "a" (JStr "hello")).
  by specialize (Hclaim eq_refl eq_refl ltac:(done) eq_refl).
Qed.

(** C2, amended: on every mapping, for every path and value, [set_nested]
    returns normally; it writes the value under the final segment exactly
    when the path is not present, and leaves the whole tree as it is when
    the path is present; every stored value that is not a mapping is kept,
    except one at an intermediate position of the path, which is replaced
    by a mapping. *)
Theorem set_nested_write_once (d : gmap string json) (path : string)
    (value : json) :
  let parts := str_split dot path in
  ∃ tree',
    set_nested (JDict d) path value = Ok tree' ∧
    (is_Some (lookup_path (JDict d) parts) → tree' = JDict d) ∧
    (lookup_path (JDict d) parts = None →
     lookup_path tree' parts = Some value) ∧
    (∀ q x, lookup_path (JDict d) q = Some x → is_dict x = false →
            ¬ intermediate q parts → lookup_path tree' q = Some x) ∧
    (∀ q x, lookup_path (JDict d) q = Some x → is_dict x = false →
            intermediate q parts → ∃ c, lookup_path tree' q = Some (JDict c)).
Proof.
  simpl. unfold set_nested.
  pose proof (str_split_nonempty dot path) as Hne.
  rewrite set_parts_dict by done. eexists. split; [done|].
  repeat split.
  - intros [x Hx]. by rewrite (merged_present _ _ _ _ Hne Hx).
  - by apply merged_absent.
  - intros q x. apply merged_frame.
  - intros q x. apply merged_intermediate.
Qed.

(** ** The backend catalog transformer *)

Section BackendProperties.
Context `{Builtins}.

Lemma translate_message_spec (msg : json) :
  if has_message msg
  then ∃ msg', translate_message msg = Ok msg' ∧ translated msg msg'
  else ∃ e, translate_message msg = Raise e.
Proof.
  unfold translate_message, translated.
  destruct msg; simpl; try by eexists.
  destruct (d !! "message") as [text|] eqn:E; simpl.
  - eauto 10.
  - by eexists.
Qed.

Lemma translate_all_spec (msgs : list json) :
  if forallb has_message msgs
  then ∃ msgs', translate_all msgs = Ok msgs' ∧ Forall2 translated msgs msgs'
  else ∃ e, translate_all msgs = Raise e.
Proof.
  induction msgs as [|msg rest IH]; simpl; [by eexists|].
  pose proof (translate_message_spec msg) as Hm.
  destruct (has_message msg); simpl.
  - destruct Hm as (msg' & -> & Hm). simpl.
    destruct (forallb has_message rest).
    + destruct IH as (rest' & -> & IH). simpl. eexists. split; [done|].
      by constructor.
    + destruct IH as (e & ->). by eexists.
  - destruct Hm as (e & ->). by eexists.
Qed.

Lemma translate_messages_spec (messages : json) :
  if iterable_messages messages
  then ∃ messages', translate_messages messages = Ok messages' ∧
         match messages with
         | JList l => ∃ l', messages' = JList l' ∧ Forall2 translated l l'
         | _ => messages' = messages
         end
  else ∃ e, translate_messages messages = Raise e.
Proof.
  unfold translate_messages.
  destruct messages as [| | | |s|l|m]; simpl; try by eexists.
  - destruct s as [|c s]; simpl; by eexists.
  - pose proof (translate_all_spec l) as Hl.
    destruct (forallb has_message l).
    + destruct Hl as (l' & -> & Hl). simpl. eauto.
    + destruct Hl as (e & ->). by eexists.
  - case_bool_decide as Hm.
    + subst. rewrite map_to_list_empty. simpl. by eexists.
    + destruct (map_to_list m) as [|[k v] kvs] eqn:E.
      * by apply map_to_list_empty_iff in E.
      * simpl. by eexists.
Qed.

Lemma translate_messages_len (messages messages' : json) :
  translate_messages messages = Ok messages' →
  ∃ n, py_len messages' = Ok n.
Proof.
  pose proof (translate_messages_spec messages) as Hs.
  destruct (iterable_messages messages) eqn:Hi.
  - destruct Hs as (m' & -> & Hs). intros [= <-].
    destruct messages; try done.
    + subst. by eexists.
    + destruct Hs as (l' & -> & _). by eexists.
    + subst. by eexists.
  - destruct Hs as (e & ->). done.
Qed.

Lemma backend_transform_dict (d : gmap string json) :
  backend_transform (JDict d) =
  match d !! "messages" with
  | None => Raise KeyError
  | Some messages =>
      messages' ← translate_messages messages;
      Ok (JDict (catalog_out d messages'))
  end.
Proof.
  unfold backend_transform, catalog_out. simpl.
  rewrite lookup_insert_ne by done.
  by destruct (d !! "messages").
Qed.

Lemma load_transform_spec (file : option json) :
  if malformed_catalog file
  then ∃ e, (data ← json_load file; backend_transform data) = Raise e
  else ∃ d messages messages',
         file = Some (JDict d) ∧ d !! "messages" = Some messages ∧
         translate_messages messages = Ok messages' ∧
         (data ← json_load file; backend_transform data)
         = Ok (JDict (catalog_out d messages')).
Proof.
  destruct file as [data|]; simpl; [|by eexists].
  destruct data; simpl; try by eexists.
  rewrite backend_transform_dict.
  destruct (d !! "messages") as [messages|] eqn:E; simpl; [|by eexists].
  pose proof (translate_messages_spec messages) as Hs.
  destruct (iterable_messages messages); simpl.
  - destruct Hs as (messages' & Ht & _). rewrite Ht. simpl. eauto 10.
  - destruct Hs as (e & ->). by eexists.
Qed.

Lemma process_backend_spec (w : world) (file : option json) :
  json_files w !! backend_en_path = Some file →
  if malformed_catalog file
  then ∃ e, process_backend w = Raised e w
  else ∃ d messages messages' n,
         file = Some (JDict d) ∧ d !! "messages" = Some messages ∧
         translate_messages messages = Ok messages' ∧
         py_len messages' = Ok n ∧
         process_backend w =
         Done (print (backend_report n)
                 (json_dump backend_de_path (JDict (catalog_out d messages')) w)).
Proof.
  intros Hf. unfold process_backend. rewrite Hf.
  pose proof (load_transform_spec file) as Hs.
  destruct (malformed_catalog file).
  - destruct Hs as (e & ->). by eexists.
  - destruct Hs as (d & messages & messages' & -> & Hm & Ht & ->).
    destruct (translate_messages_len _ _ Ht) as [n Hn].
    exists d, messages, messages', n. repeat split; try done.
    simpl. unfold catalog_out. rewrite lookup_insert_eq. simpl.
    by rewrite Hn.
Qed.

Lemma forallb_Forall {A : Type} (f : A → bool) (l : list A) :
  Forall (λ x, f x = true) l → forallb f l = true.
Proof. induction 1 as [|x l Hx _ IH]; simpl; [done | by rewrite Hx, IH]. Qed.

Lemma format_value_str (s : string) : format_value (JStr s) = s.
Proof. done. Qed.

Lemma translated_fields (msg msg' : json) :
  translated msg msg' →
  ∃ m m' text,
    msg = JDict m ∧ msg' = JDict m' ∧ m !! "message" = Some text ∧
    m' !! "translation" = Some (JStr ("[DE] " ++ format_value text)) ∧
    ∀ k, k ≠ "translation" → m' !! k = m !! k.
Proof.
  intros (m & text & -> & Hm & ->). eexists _, _, text.
  repeat split; [done|by rewrite lookup_insert_eq|].
  intros k Hk. by rewrite lookup_insert_ne.
Qed.

(** C1: for every catalog that is a mapping with a [language] field and a
    [messages] list whose elements are mappings with a [message] field,
    [process_backend] ends normally and the catalog it writes has
    [language] equal to ["de"] and a [messages] list of the same length
    in which the message at each index keeps its [message] field and has
    as [translation] the string ["[DE] "] followed by the text of that
    field (the field itself when it is a string). *)
Theorem process_backend_translates (w : world) (d : gmap string json)
    (l : list json) :
  json_files w !! backend_en_path = Some (Some (JDict d)) →
  is_Some (d !! "language") →
  d !! "messages" = Some (JList l) →
  Forall (λ msg, has_message msg = true) l →
  ∃ w' out l',
    process_backend w = Done w' ∧
    json_files w' !! backend_de_path = Some (Some (JDict out)) ∧
    out !! "language" = Some (JStr "de") ∧
    out !! "messages" = Some (JList l') ∧
    List.length l' = List.length l ∧
    ∀ i msg, l !! i = Some msg →
      ∃ msg' text,
        l' !! i = Some msg' ∧
        getitem msg "message" = Ok text ∧
        getitem msg' "message" = Ok text ∧
        getitem msg' "translation" = Ok (JStr ("[DE] " ++ format_value text)) ∧
        (∀ s, text = JStr s →
              getitem msg' "translation" = Ok (JStr ("[DE] " ++ s))).
Proof.
  intros Hf _ Hm Hl.
  pose proof (process_backend_spec w _ Hf) as Hs. simpl in Hs.
  rewrite Hm in Hs. simpl in Hs.
  apply forallb_Forall in Hl. rewrite Hl in Hs. simpl in Hs.
  destruct Hs as (d0 & messages & messages' & n & [= <-] & Hm' & Ht & _ & ->).
  rewrite Hm in Hm'. injection Hm' as <-.
  pose proof (translate_messages_spec (JList l)) as Hs. simpl in Hs.
  rewrite Hl, Ht in Hs. destruct Hs as (? & [= <-] & l' & -> & Hl').
  eexists _, _, l'. split; [done|]. simpl. rewrite lookup_insert_eq.
  split; [done|]. unfold catalog_out.
  rewrite lookup_insert_ne, !lookup_insert_eq by done.
  repeat split; [by rewrite (Forall2_length _ _ _ Hl')|].
  intros i msg Hi.
  destruct (Forall2_lookup_l _ _ _ _ _ Hl' Hi) as (msg' & Hi' & Htr).
  destruct (translated_fields _ _ Htr) as (m & m' & text & -> & -> & Hx & Hy & Hz).
  exists (JDict m'), text. simpl. rewrite Hx, Hy, Hz, Hx by done.
  repeat split; try done. by intros s ->.
Qed.

(** C6: when [process_backend] ends normally on a catalog, the catalog is
    a mapping and the one written differs from it in nothing but the
    [language] field and the [translation] field of each message: every
    other top-level field is the same, the messages are as many and in
    the same order, and every other field of every message is the same.
    No other file is touched. *)
Theorem process_backend_frame (w w' : world) (data : json) :
  json_files w !! backend_en_path = Some (Some data) →
  process_backend w = Done w' →
  ∃ d out,
    data = JDict d ∧
    json_files w' !! backend_de_path = Some (Some (JDict out)) ∧
    (∀ k, k ≠ "language" → k ≠ "messages" → out !! k = d !! k) ∧
    match d !! "messages" with
    | Some (JList l) =>
        ∃ l', out !! "messages" = Some (JList l') ∧
              List.length l' = List.length l ∧
              ∀ i msg, l !! i = Some msg →
                ∃ m m', msg = JDict m ∧ l' !! i = Some (JDict m') ∧
                        ∀ k, k ≠ "translation" → m' !! k = m !! k
    | other => out !! "messages" = other
    end ∧
    (∀ p, p ≠ backend_de_path → json_files w' !! p = json_files w !! p) ∧
    text_files w' = text_files w.
Proof.
  intros Hf Hrun.
  pose proof (process_backend_spec w _ Hf) as Hs.
  destruct (malformed_catalog (Some data)).
  { destruct Hs as (e & He). congruence. }
  destruct Hs as (d & messages & messages' & n & [= ->] & Hm & Ht & _ & Hw).
  rewrite Hw in Hrun. injection Hrun as <-.
  exists d, (catalog_out d messages'). split; [done|]. simpl.
  rewrite lookup_insert_eq. split; [done|]. split.
  { intros k Hk1 Hk2. unfold catalog_out. by rewrite !lookup_insert_ne. }
  split; [|split; [|done]].
  - rewrite Hm. unfold catalog_out. rewrite lookup_insert_eq.
    pose proof (translate_messages_spec messages) as Hs.
    rewrite Ht in Hs.
    destruct (iterable_messages messages); [|by destruct Hs].
    destruct Hs as (? & [= <-] & Hs).
    destruct messages; try by rewrite Hs.
    destruct Hs as (l' & -> & Hl'). exists l'. split; [done|].
    split; [by rewrite (Forall2_length _ _ _ Hl')|].
    intros i msg Hi.
    destruct (Forall2_lookup_l _ _ _ _ _ Hl' Hi) as (msg' & Hi' & Htr).
    destruct (translated_fields _ _ Htr) as (m & m' & text & -> & -> & _ & _ & Hz).
    by exists m, m'.
  - intros p Hp. by rewrite lookup_insert_ne.
Qed.

(** C7, amended: when the catalog file exists and does not parse, or is
    not a mapping, or has no [messages] field, or has a [messages] value
    over which the loop cannot run to its end (a message that is not a
    mapping with a [message] field, or a value that is not a list and not
    an empty mapping or string), [process_backend] raises and leaves the
    world as it was: nothing is written.  On every other catalog file it
    ends normally and writes the output; a missing [language] field is no
    error. *)
Theorem process_backend_malformed (w : world) (file : option json) :
  json_files w !! backend_en_path = Some file →
  if malformed_catalog file
  then ∃ e, process_backend w = Raised e w
  else ∃ w' out, process_backend w = Done w' ∧
                 json_files w' !! backend_de_path = Some (Some out).
Proof.
  intros Hf. pose proof (process_backend_spec w _ Hf) as Hs.
  destruct (malformed_catalog file); [done|].
  destruct Hs as (d & messages & messages' & n & _ & _ & _ & _ & ->).
  eexists _, _. split; [done|]. simpl. by rewrite lookup_insert_eq.
Qed.

End BackendProperties.

(** ** The frontend key-tree transformer *)

Section FrontendProperties.
Context `{Builtins}.

Lemma display_name_ok (key : string) :
  display_name key = Ok (display_text key).
Proof.
  unfold display_name, display_text.
  pose proof (str_split_nonempty dot key) as Hne.
  destruct (last (str_split dot key)) eqn:E; [done|].
  by apply last_None in E.
Qed.

Lemma frontend_step_spec (en_data : json) (de : gmap string json)
    (key : string) :
  frontend_step en_data (JDict de) key =
  (en' ← en_step en_data key;
   Ok (en', JDict (de_after de (en_value en_data key) key))).
Proof.
  unfold frontend_step, en_step, en_value, de_after.
  rewrite display_name_ok. simpl.
  pose proof (str_split_nonempty dot key) as Hne.
  destruct (is_none (get_nested en_data key)) eqn:Hn; simpl.
  - destruct (set_nested en_data key (JStr (display_text key))); simpl; [|done].
    unfold set_nested. by rewrite set_parts_dict.
  - destruct (get_nested en_data key); simpl; try done.
    unfold set_nested. by rewrite set_parts_dict.
Qed.

(** The loop raises exactly when its work on the source tree does, and
    the target tree stays a mapping. *)
Lemma frontend_loop_spec (keys : list string) (en_data : json)
    (de : gmap string json) :
  match en_loop keys en_data with
  | Ok en' => ∃ de', frontend_loop keys en_data (JDict de) = Ok (en', JDict de')
  | Raise e => frontend_loop keys en_data (JDict de) = Raise e
  end.
Proof.
  revert en_data de. induction keys as [|key rest IH]; intros en_data de; simpl.
  - by eexists.
  - rewrite frontend_step_spec.
    destruct (en_step en_data key) as [en'|e]; simpl; [|done].
    apply IH.
Qed.

(** *** On a mapping *)

Lemma en_step_dict (en : gmap string json) (key : string) :
  en_step (JDict en) key = Ok (JDict (en_after en key)).
Proof.
  unfold en_step, en_after, set_nested.
  destruct (is_none (get_nested (JDict en) key)); [|done].
  apply set_parts_dict, str_split_nonempty.
Qed.

Lemma en_loop_dict (keys : list string) (en : gmap string json) :
  en_loop keys (JDict en) = Ok (JDict (foldl en_after en keys)).
Proof.
  revert en. induction keys as [|key rest IH]; intros en; simpl; [done|].
  rewrite en_step_dict. simpl. apply IH.
Qed.

Lemma str_no_none (s : string) (r : list string) :
  lookup_path (JStr s) r ≠ Some JNull.
Proof. by destruct r. Qed.

Lemma en_after_resolves (en : gmap string json) (key : string) :
  no_stored_none (JDict en) key →
  get_nested (JDict (en_after en key)) key ≠ JNull.
Proof.
  unfold no_stored_none, en_after, get_nested. intros Hnn.
  destruct (is_none (get_loop (JDict en) (str_split dot key))) eqn:Hn.
  - rewrite get_loop_lookup_path in Hn |- *.
    rewrite merged_absent; [done|apply str_split_nonempty|].
    destruct (lookup_path (JDict en) (str_split dot key)) as [v|]; [|done].
    destruct v; try done.
  - intros Heq. by rewrite Heq in Hn.
Qed.

Lemma en_after_no_stored_none (en : gmap string json) (key q : string) :
  no_stored_none (JDict en) q → no_stored_none (JDict (en_after en key)) q.
Proof.
  unfold no_stored_none, en_after. intros Hnn.
  destruct (is_none (get_nested (JDict en) key)); [|done].
  intros Hq. apply Hnn. eapply merged_no_new_none; [|done].
  apply str_no_none.
Qed.

Lemma en_after_keeps_paths (en : gmap string json) (key q : string) :
  is_Some (lookup_path (JDict en) (str_split dot q)) →
  is_Some (lookup_path (JDict (en_after en key)) (str_split dot q)).
Proof.
  unfold en_after. destruct (is_none (get_nested (JDict en) key)); [|done].
  apply merged_keeps_paths.
Qed.

Lemma en_after_keeps_resolved (en : gmap string json) (key q : string) :
  get_nested (JDict en) q ≠ JNull →
  get_nested (JDict (en_after en key)) q ≠ JNull.
Proof.
  unfold get_nested. intros (v & Hv & Hnn)%get_loop_not_none.
  assert (is_Some (lookup_path (JDict (en_after en key)) (str_split dot q)))
    as [v' Hv'] by (apply en_after_keeps_paths; by eexists).
  rewrite get_loop_lookup_path, Hv'. simpl. intros ->.
  assert (no_stored_none (JDict en) q) as Hq
    by (unfold no_stored_none; congruence).
  by apply (en_after_no_stored_none _ key) in Hq.
Qed.

Lemma en_after_present (en : gmap string json) (key : string) :
  is_Some (lookup_path (JDict (en_after en key)) (str_split dot key)).
Proof.
  unfold en_after, get_nested.
  destruct (lookup_path (JDict en) (str_split dot key)) as [v|] eqn:E.
  - destruct (is_none _); [|by rewrite E].
    rewrite (merged_present _ _ _ v), E; [done|apply str_split_nonempty|done].
  - rewrite get_loop_lookup_path, E. simpl.
    rewrite merged_absent; [done|apply str_split_nonempty|done].
Qed.

Lemma en_after_fixed (en : gmap string json) (key : string) :
  is_Some (lookup_path (JDict en) (str_split dot key)) →
  en_after en key = en.
Proof.
  intros [v Hv]. unfold en_after.
  destruct (is_none _); [|done].
  eapply merged_present; [apply str_split_nonempty|done].
Qed.

Lemma foldl_en_after_resolved (keys : list string) (en : gmap string json)
    (q : string) :
  get_nested (JDict en) q ≠ JNull →
  get_nested (JDict (foldl en_after en keys)) q ≠ JNull.
Proof.
  revert en. induction keys as [|key rest IH]; intros en Hq; [done|].
  simpl. by apply IH, en_after_keeps_resolved.
Qed.

Lemma foldl_en_after_paths (keys : list string) (en : gmap string json)
    (q : string) :
  is_Some (lookup_path (JDict en) (str_split dot q)) →
  is_Some (lookup_path (JDict (foldl en_after en keys)) (str_split dot q)).
Proof.
  revert en. induction keys as [|key rest IH]; intros en Hq; [done|].
  simpl. by apply IH, en_after_keeps_paths.
Qed.

(** After the loop every key of the list resolves, if none of them held a
    stored [None] before. *)
Lemma foldl_en_after_resolves (keys : list string) (en : gmap string json) :
  (∀ k, k ∈ keys → no_stored_none (JDict en) k) →
  ∀ k, k ∈ keys → get_nested (JDict (foldl en_after en keys)) k ≠ JNull.
Proof.
  revert en. induction keys as [|key rest IH]; intros en Hnn k Hk.
  { by apply elem_of_nil in Hk. }
  simpl. apply elem_of_cons in Hk as [->|Hk].
  - apply foldl_en_after_resolved, en_after_resolves, Hnn. by left.
  - apply IH; [|done]. intros k' Hk'.
    apply en_after_no_stored_none, Hnn. by right.
Qed.

(** After the loop every key of the list is present. *)
Lemma foldl_en_after_present (keys : list string) (en : gmap string json) :
  ∀ k, k ∈ keys →
    is_Some (lookup_path (JDict (foldl en_after en keys)) (str_split dot k)).
Proof.
  revert en. induction keys as [|key rest IH]; intros en k Hk.
  { by apply elem_of_nil in Hk. }
  simpl. apply elem_of_cons in Hk as [->|Hk].
  - apply foldl_en_after_paths, en_after_present.
  - by apply IH.
Qed.

(** On a tree in which every key is present the loop changes nothing. *)
Lemma foldl_en_after_fixed (keys : list string) (en : gmap string json) :
  (∀ k, k ∈ keys → is_Some (lookup_path (JDict en) (str_split dot k))) →
  foldl en_after en keys = en.
Proof.
  induction keys as [|key rest IH]; intros Hp; [done|].
  simpl. rewrite en_after_fixed by (apply Hp; by left).
  apply IH. intros k Hk. apply Hp. by right.
Qed.

(** *** On a tree that is not a mapping *)

Lemma set_loop_not_dict (data data' : json) (inits : list string)
    (last_key : option string) (value : json) :
  is_dict data = false →
  set_loop data inits last_key value = Ok data' → data' = data.
Proof.
  intros Hd. destruct inits as [|part rest]; simpl.
  - destruct last_key as [k|]; [|done].
    destruct data; simpl; try done.
    + destruct (str_contains k s); simpl; congruence.
    + destruct (existsb _ l); simpl; congruence.
  - destruct data; simpl; try done.
    + by destruct (str_contains part s).
    + by destruct (existsb _ l).
Qed.

Lemma en_step_not_dict (en_data en' : json) (key : string) :
  is_dict en_data = false → en_step en_data key = Ok en' → en' = en_data.
Proof.
  unfold en_step, set_nested, set_parts. intros Hd.
  destruct (is_none _); [|congruence].
  by apply set_loop_not_dict.
Qed.

Lemma en_loop_not_dict (keys : list string) (en_data en' : json) :
  is_dict en_data = false → en_loop keys en_data = Ok en' → en' = en_data.
Proof.
  intros Hd. induction keys as [|key rest IH]; simpl; [congruence|].
  destruct (en_step en_data key) as [en1|] eqn:E; [|done]. simpl.
  apply en_step_not_dict in E as ->; done.
Qed.

(** *** A second run *)

Lemma en_loop_again (keys : list string) (en_data en' : json) :
  en_loop keys en_data = Ok en' → en_loop keys en' = Ok en'.
Proof.
  destruct (is_dict en_data) eqn:Hd.
  - destruct en_data; try done.
    rewrite en_loop_dict. intros [= <-]. rewrite en_loop_dict.
    by rewrite foldl_en_after_fixed by apply foldl_en_after_present.
  - intros Hl. by rewrite (en_loop_not_dict _ _ _ Hd Hl) in Hl |- *.
Qed.

(** *** The whole operation *)

Lemma process_frontend_spec (w : world) (lines : list string) :
  text_files w !! frontend_keys_path = Some lines →
  match en_loop (read_keys lines) (load_en w) with
  | Ok en' =>
      ∃ de', process_frontend w =
             Done (print (frontend_report (List.length (read_keys lines)))
                     (json_dump frontend_de_path (JDict de')
                        (json_dump frontend_en_path en' w)))
  | Raise e => process_frontend w = Raised e w
  end.
Proof.
  intros Hk. unfold process_frontend. rewrite Hk.
  pose proof (frontend_loop_spec (read_keys lines) (load_en w) ∅) as Hs.
  destruct (en_loop (read_keys lines) (load_en w)) as [en'|e].
  - destruct Hs as (de' & ->). by eexists.
  - by rewrite Hs.
Qed.

Lemma frontend_paths_ne : frontend_de_path ≠ frontend_en_path.
Proof. done. Qed.

Lemma load_en_written (w : world) (en' de' : json) (line : string) :
  load_en (print line (json_dump frontend_de_path de'
                         (json_dump frontend_en_path en' w))) = en'.
Proof.
  unfold load_en. simpl.
  rewrite lookup_insert_ne by apply frontend_paths_ne.
  by rewrite lookup_insert_eq.
Qed.


(** C3, amended: when the key-list file is there, the source tree the run
    starts from is a mapping (the file is missing, does not parse, or holds
    a mapping) and no key of the list addresses a stored [None] in it, the
    run ends normally and every key of the list resolves through
    [get_nested] to a value that is not [None] in the source tree written,
    whatever the order of the keys and whether or not one extends
    another. *)
Theorem process_frontend_keys_resolve (w : world) (lines : list string)
    (d : gmap string json) :
  text_files w !! frontend_keys_path = Some lines →
  load_en w = JDict d →
  (∀ k, k ∈ read_keys lines →
        lookup_path (JDict d) (str_split dot k) ≠ Some JNull) →
  ∃ w' en',
    process_frontend w = Done w' ∧
    json_files w' !! frontend_en_path = Some (Some en') ∧
    ∀ k, k ∈ read_keys lines → get_nested en' k ≠ JNull.
Proof.
  intros Hk Hd Hnn.
  pose proof (process_frontend_spec w lines Hk) as Hs.
  rewrite Hd, en_loop_dict in Hs. destruct Hs as (de' & ->).
  eexists _, _. split; [done|]. simpl.
  rewrite lookup_insert_ne by apply frontend_paths_ne.
  rewrite lookup_insert_eq. split; [done|].
  by apply foldl_en_after_resolves.
Qed.

(** C4: when a run of [process_frontend] has ended normally, a second run
    on the world it left (so with the same key list) ends normally too and
    writes the source tree back as the first run left it: the file is the
    same, so every path resolves to the same value as before and no leaf
    is altered. *)
Theorem process_frontend_twice (w w1 : world) :
  process_frontend w = Done w1 →
  ∃ w2,
    process_frontend w1 = Done w2 ∧
    json_files w2 !! frontend_en_path = json_files w1 !! frontend_en_path ∧
    ∀ q, get_nested (load_en w2) q = get_nested (load_en w1) q.
Proof.
  intros Hrun.
  destruct (text_files w !! frontend_keys_path) as [lines|] eqn:Hk.
  - pose proof (process_frontend_spec w lines Hk) as Hs.
    destruct (en_loop (read_keys lines) (load_en w)) as [en'|e] eqn:Hl;
      [|congruence].
    destruct Hs as (de' & Hw). rewrite Hw in Hrun. injection Hrun as <-.
    pose proof (process_frontend_spec
                  (print (frontend_report (List.length (read_keys lines)))
                     (json_dump frontend_de_path (JDict de')
                        (json_dump frontend_en_path en' w))) lines Hk) as Hs.
    rewrite load_en_written, (en_loop_again _ _ _ Hl) in Hs.
    destruct Hs as (de2 & ->). eexists. split; [done|].
    split.
    + simpl. rewrite !(lookup_insert_ne _ frontend_de_path)
        by apply frontend_paths_ne.
      by rewrite !lookup_insert_eq.
    + intros q. by rewrite !load_en_written.
  - unfold process_frontend in Hrun. rewrite Hk in Hrun. injection Hrun as <-.
    unfold process_frontend. simpl. rewrite Hk. by eexists.
Qed.

End FrontendProperties.

(** ** The script at concrete inputs *)

Section Examples.
#[local] Existing Instance ascii_builtins.

Lemma process_backend_translates_witness :
  ∃ w' out l',
    process_backend (backend_world (Some (JDict hello_catalog))) = Done w' ∧
    json_files w' !! backend_de_path = Some (Some (JDict out)) ∧
    out !! "language" = Some (JStr "de") ∧
    out !! "messages" = Some (JList l') ∧
    List.length l' = 1 ∧
    ∀ i msg, [JDict hello_message] !! i = Some msg →
      ∃ msg' text,
        l' !! i = Some msg' ∧
        getitem msg "message" = Ok text ∧
        getitem msg' "message" = Ok text ∧
        getitem msg' "translation" = Ok (JStr ("[DE] " ++ format_value text)) ∧
        (∀ s, text = JStr s →
              getitem msg' "translation" = Ok (JStr ("[DE] " ++ s))).
Proof.
  apply (process_backend_translates
           (backend_world (Some (JDict hello_catalog))) hello_catalog
           [JDict hello_message]).
  - reflexivity.
  - by eexists.
  - reflexivity.
  - by repeat constructor.
Defined.

Lemma process_backend_frame_witness :
  ∃ w', process_backend (backend_world (Some (JDict hello_catalog))) = Done w' ∧
  ∃ d out,
    JDict hello_catalog = JDict d ∧
    json_files w' !! backend_de_path = Some (Some (JDict out)) ∧
    (∀ k, k ≠ "language" → k ≠ "messages" → out !! k = d !! k) ∧
    match d !! "messages" with
    | Some (JList l) =>
        ∃ l', out !! "messages" = Some (JList l') ∧
              List.length l' = List.length l ∧
              ∀ i msg, l !! i = Some msg →
                ∃ m m', msg = JDict m ∧ l' !! i = Some (JDict m') ∧
                        ∀ k, k ≠ "translation" → m' !! k = m !! k
    | other => out !! "messages" = other
    end ∧
    (∀ p, p ≠ backend_de_path →
          json_files w' !! p
          = json_files (backend_world (Some (JDict hello_catalog))) !! p) ∧
    text_files w' = text_files (backend_world (Some (JDict hello_catalog))).
Proof.
  eexists. split; [by vm_compute|].
  apply (process_backend_frame (backend_world (Some (JDict hello_catalog)))).
  - reflexivity.
  - by vm_compute.
Defined.

(** C7, as stated, fails on a catalog without a [language] field: the
    field is added, nothing is raised and the output is written. *)
Lemma process_backend_missing_language :
  let w := backend_world (Some (JDict {[ "messages" := JList [] ]})) in
  ∃ w', process_backend w = Done w' ∧
        json_files w' !! backend_de_path
        = Some (Some (JDict {[ "language" := JStr "de";
                               "messages" := JList [] ]})).
Proof. eexists. split; by vm_compute. Qed.

Lemma process_backend_malformed_witness :
  let w := backend_world (Some (JDict {[ "language" := JStr "en" ]})) in
  json_files w !! backend_en_path = Some (Some (JDict {[ "language" := JStr "en" ]})) ∧
  ∃ e, process_backend w = Raised e w.
Proof.
  split; [reflexivity|].
  exact (process_backend_malformed
           (backend_world (Some (JDict {[ "language" := JStr "en" ]})))
           (Some (JDict {[ "language" := JStr "en" ]})) eq_refl).
Defined.

(** C3, as stated, fails on a source tree in which a key of the list is
    stored with the value [None]: the key is present, so nothing is
    written, and it still resolves to [None] after the run. *)
Lemma process_frontend_stored_none :
  let w := frontend_world ["a"] (Some (JDict {[ "a" := JNull ]})) in
  "a" ∈ read_keys ["a"] ∧
  ∃ w' en', process_frontend w = Done w' ∧
            json_files w' !! frontend_en_path = Some (Some en') ∧
            get_nested en' "a" = JNull.
Proof.
  split; [by vm_compute; left|].
  eexists _, _. split; [by vm_compute|]. split; by vm_compute.
Qed.

Lemma process_frontend_keys_resolve_witness :
  let w := frontend_world ["home.title"; "home"] None in
  text_files w !! frontend_keys_path = Some ["home.title"; "home"] ∧
  load_en w = JDict ∅ ∧
  (∀ k, k ∈ read_keys ["home.title"; "home"] →
        lookup_path (JDict ∅) (str_split dot k) ≠ Some JNull) ∧
  ∃ w' en',
    process_frontend w = Done w' ∧
    json_files w' !! frontend_en_path = Some (Some en') ∧
    ∀ k, k ∈ read_keys ["home.title"; "home"] → get_nested en' k ≠ JNull.
Proof.
  assert (∀ k : string, lookup_path (JDict ∅) (str_split dot k) ≠ Some JNull)
    as Hnn.
  { intros k. pose proof (str_split_nonempty dot k).
    by destruct (str_split dot k). }
  split; [reflexivity|]. split; [reflexivity|]. split; [by intros k _|].
  apply (process_frontend_keys_resolve
           (frontend_world ["home.title"; "home"] None)
           ["home.title"; "home"] ∅ eq_refl eq_refl).
  by intros k _.
Defined.

Lemma process_frontend_twice_witness :
  ∃ w1,
    process_frontend
      (frontend_world ["home.title"] (Some (JDict {[ "home" := JStr "x" ]})))
    = Done w1 ∧
    ∃ w2,
      process_frontend w1 = Done w2 ∧
      json_files w2 !! frontend_en_path = json_files w1 !! frontend_en_path ∧
      ∀ q, get_nested (load_en w2) q = get_nested (load_en w1) q.
Proof.
  eexists. split; [by vm_compute|].
  apply (process_frontend_twice
           (frontend_world ["home.title"] (Some (JDict {[ "home" := JStr "x" ]})))).
  by vm_compute.
Defined.

(** C5: the run on a source-tree file that holds a JSON list.  The file
    parses, so nothing is swallowed; [get_nested] answers [None] on the
    list, and [set_nested] raises on it. *)
Theorem process_frontend_raises_on_list :
  let w := frontend_world ["a"] (Some (JList [])) in
  process_frontend w = Raised TypeError w.
Proof. by vm_compute. Qed.

End Examples.

(** * Further properties *)

(** ** Keys and paths *)

Lemma str_split_no_sep_single (sep : ascii) (s : string) :
  str_mem sep s = false → str_split sep s = [s].
Proof.
  induction s as [|c s IH]; simpl; [done|].
  destruct (ascii_eqb c sep); [done|]. simpl. intros Hs. by rewrite IH.
Qed.

Lemma str_split_sep_several (sep : ascii) (s : string) :
  str_mem sep s = true → ∃ p q rest, str_split sep s = p :: q :: rest.
Proof.
  induction s as [|c s IH]; simpl; [done|].
  pose proof (str_split_nonempty sep s) as Hne.
  destruct (ascii_eqb c sep); simpl.
  - intros _. destruct (str_split sep s) as [|q rest]; [done|]. by eexists _, _, _.
  - intros (p & q & rest & ->)%IH. by eexists _, _, _.
Qed.

Lemma str_split_app (sep : ascii) (p q : string) :
  str_split sep (p ++ String sep q)
  = (str_split sep p ++ str_split sep q)%list.
Proof.
  induction p as [|c p IH]; simpl.
  - unfold ascii_eqb. by rewrite bool_decide_eq_true_2.
  - rewrite IH. destruct (ascii_eqb c sep); [done|].
    pose proof (str_split_nonempty sep p) as Hne.
    by destruct (str_split sep p).
Qed.

Lemma str_split_inj (sep : ascii) (s t : string) :
  str_split sep s = str_split sep t → s = t.
Proof.
  intros Heq. by rewrite <- (str_join_split sep s), Heq, str_join_split.
Qed.

Lemma get_loop_app (data : json) (ps qs : list string) :
  qs ≠ [] → get_loop data (ps ++ qs)%list = get_loop (get_loop data ps) qs.
Proof.
  intros Hqs. revert data. induction ps as [|p ps IH]; intros data; [done|].
  assert (get_loop JNull qs = JNull) as Hnull by by destruct qs.
  simpl. destruct data; try done.
  destruct (d !! p); by rewrite ?IH.
Qed.

(** X1: looking a dotted path up is looking its first part up and then
    the rest in what was found; a part that is not found gives [None], in
    which every further lookup gives [None] again. *)
Theorem get_nested_compose (tree : json) (p q : string) :
  get_nested tree (p ++ "." ++ q) = get_nested (get_nested tree p) q.
Proof.
  unfold get_nested. change (p ++ "." ++ q) with (p ++ String dot q).
  rewrite str_split_app. apply get_loop_app, str_split_nonempty.
Qed.

(** ** More on the mutator *)

Lemma merged_path_present (d : gmap string json) (parts : list string)
    (value : json) :
  parts ≠ [] → is_Some (lookup_path (JDict (merged d parts value)) parts).
Proof.
  intros Hne. destruct (lookup_path (JDict d) parts) as [x|] eqn:E.
  - rewrite (merged_present _ _ _ x), E; done.
  - rewrite merged_absent; done.
Qed.

(** A mapping stays a mapping. *)
Lemma merged_keeps_dicts (d c : gmap string json) (parts q : list string)
    (value : json) :
  lookup_path (JDict d) q = Some (JDict c) →
  ∃ c', lookup_path (JDict (merged d parts value)) q = Some (JDict c').
Proof.
  revert d q. induction parts as [|part rest IH]; intros d q; [by eexists|].
  destruct q as [|q0 qr]; [by eexists|].
  change (lookup_path (JDict ?m) (q0 :: ?r))
    with (m !! q0 ≫= λ v, lookup_path v r).
  destruct (decide (part = q0)) as [->|Hne].
  - destruct rest as [|part' rest].
    + simpl. destruct (d !! q0) as [x|] eqn:E; simpl; rewrite ?E; [|done].
      by eexists.
    + change (merged d (q0 :: part' :: rest) value)
        with (<[q0 := JDict (merged (child_dict d q0) (part' :: rest) value)]> d).
      rewrite lookup_insert_eq. simpl.
      destruct (d !! q0) as [x|] eqn:E; [|done]. simpl.
      destruct (is_dict x) eqn:Hx.
      * destruct x; try done. rewrite (child_dict_lookup _ _ _ E). apply IH.
      * intros Hq. by destruct (lookup_path_not_dict _ _ _ Hx Hq) as [_ <-].
  - assert (merged d (part :: rest) value !! q0 = d !! q0) as ->; [|by eexists].
    destruct rest as [|part' rest]; simpl.
    + destruct (d !! part); [done|]. by rewrite lookup_insert_ne.
    + by rewrite lookup_insert_ne.
Qed.

(** Where a value found after a merge comes from: it was there before, or
    it is a mapping at an intermediate position of the path, or it is (in)
    the value written at the path, which was not present. *)
Lemma merged_lookup_inv (d : gmap string json) (parts q : list string)
    (value x : json) :
  parts ≠ [] →
  lookup_path (JDict (merged d parts value)) q = Some x →
  lookup_path (JDict d) q = Some x ∨
  (intermediate q parts ∧ is_dict x = true) ∨
  (∃ r, q = (parts ++ r)%list ∧ lookup_path (JDict d) parts = None ∧
        lookup_path value r = Some x).
Proof.
  revert d q. induction parts as [|part rest IH]; intros d q Hne; [done|].
  destruct q as [|q0 qr].
  { intros [= <-]. right. left. split; [|done]. split; [apply prefix_nil|done]. }
  change (lookup_path (JDict ?m) (q0 :: ?r))
    with (m !! q0 ≫= λ v, lookup_path v r).
  destruct (decide (part = q0)) as [->|Hpq].
  - destruct rest as [|part' rest].
    + simpl. destruct (d !! q0) as [y|] eqn:E; simpl; rewrite ?E; [by left|].
      rewrite lookup_insert_eq. simpl. intros Hx. right. right.
      by exists qr.
    + change (merged d (q0 :: part' :: rest) value)
        with (<[q0 := JDict (merged (child_dict d q0) (part' :: rest) value)]> d).
      rewrite lookup_insert_eq. simpl. intros Hx.
      apply IH in Hx; [|done].
      destruct Hx as [Hx|[[[Hp Hn] Hx]|(r & -> & Hn & Hx)]].
      * unfold child_dict in Hx.
        destruct (d !! q0) as [y|] eqn:E; simpl.
        -- destruct (is_dict y) eqn:Hy; [destruct y; try done; by left|].
           assert (lookup_path (JDict ∅) qr = Some x) as Hx'
             by (by destruct y).
           right. left. destruct qr as [|q1 qr]; [|done].
           injection Hx' as <-. split; [|done].
           split; [apply prefix_cons, prefix_nil|done].
        -- right. left. destruct qr as [|q1 qr]; [|done].
           injection Hx as <-. split; [|done].
           split; [apply prefix_cons, prefix_nil|done].
      * right. left. split; [|done].
        split; [by apply prefix_cons | congruence].
      * right. right. exists r. split; [done|]. split; [|done].
        change (lookup_path (JDict d) (q0 :: part' :: rest))
          with (d !! q0 ≫= λ v, lookup_path v (part' :: rest)).
        unfold child_dict in Hn.
        destruct (d !! q0) as [y|] eqn:E; [|done]. simpl.
        by destruct y.
  - assert (merged d (part :: rest) value !! q0 = d !! q0) as ->; [|by left].
    destruct rest as [|part' rest]; simpl.
    + destruct (d !! part); [done|]. by rewrite lookup_insert_ne.
    + by rewrite lookup_insert_ne.
Qed.

(** X2: on a mapping [set_nested] returns a mapping, removes no path and
    turns no mapping into something else: every path that resolves before
    resolves after, and a path that holds a mapping still holds one. *)
Theorem set_nested_keeps_structure (d : gmap string json) (path : string)
    (value : json) :
  ∃ d',
    set_nested (JDict d) path value = Ok (JDict d') ∧
    (∀ q, is_Some (lookup_path (JDict d) q) →
          is_Some (lookup_path (JDict d') q)) ∧
    (∀ q c, lookup_path (JDict d) q = Some (JDict c) →
            ∃ c', lookup_path (JDict d') q = Some (JDict c')).
Proof.
  unfold set_nested. rewrite set_parts_dict by apply str_split_nonempty.
  eexists. split; [done|]. split.
  - intros q. apply merged_keeps_paths.
  - intros q c. apply merged_keeps_dicts.
Qed.

(** The mutator on a list, a string or a scalar. *)
Lemma set_nested_on_non_dict (data : json) (key : string) (value : json) :
  is_dict data = false →
  set_nested data key value =
  if accepts_key data key then Ok data else Raise TypeError.
Proof.
  intros Hd. unfold set_nested, set_parts.
  destruct (str_mem dot key) eqn:Hm.
  - destruct (str_split_sep_several _ _ Hm) as (p & q & rest & ->).
    change (removelast (p :: q :: rest)) with (p :: removelast (q :: rest)).
    destruct data; simpl; try done; rewrite Hm; simpl.
    + by destruct (str_contains p s).
    + by destruct (existsb _ l).
  - rewrite (str_split_no_sep_single _ _ Hm). simpl.
    destruct data; simpl; try done; rewrite Hm; simpl.
    + by destruct (str_contains key s).
    + by destruct (existsb _ l).
Qed.

(** X3: on a root that is not a mapping [set_nested] never writes: it
    returns normally, leaving the root as it is, when the key has no dot
    and is an element of the list (a substring of the string), and raises
    [TypeError] in every other case. *)
Theorem set_nested_not_mapping (data : json) (key : string) (value : json) :
  is_dict data = false →
  set_nested data key value =
  if accepts_key data key then Ok data else Raise TypeError.
Proof. apply set_nested_on_non_dict. Qed.

Lemma set_nested_not_mapping_witness :
  is_dict (JList [JStr "a"]) = false ∧
  set_nested (JList [JStr "a"]) "a.b" (JStr "x") =
  if accepts_key (JList [JStr "a"]) "a.b" then Ok (JList [JStr "a"])
  else Raise TypeError.
Proof. split; [done|]. by apply set_nested_not_mapping. Defined.

(** X4: the first write wins.  When [set_nested] has returned normally, a
    second call on the result with the same path returns normally too and
    changes nothing, whatever value it is given. *)
Theorem set_nested_first_write_wins (tree tree' : json) (path : string)
    (value value' : json) :
  set_nested tree path value = Ok tree' →
  set_nested tree' path value' = Ok tree'.
Proof.
  destruct (is_dict tree) eqn:Hd.
  - destruct tree; try done. unfold set_nested.
    pose proof (str_split_nonempty dot path) as Hne.
    rewrite set_parts_dict by done. intros [= <-].
    rewrite set_parts_dict by done.
    destruct (merged_path_present d _ value Hne) as [x Hx].
    by rewrite (merged_present _ _ _ _ Hne Hx).
  - rewrite !set_nested_on_non_dict by done.
    destruct (accepts_key tree path) eqn:Ha; [|done].
    intros [= <-]. by rewrite set_nested_on_non_dict, Ha.
Qed.

Lemma set_nested_first_write_wins_witness :
  set_nested (JDict ∅) "home.title" (JStr "Title")
  = Ok (JDict {[ "home" := JDict {[ "title" := JStr "Title" ]} ]}) ∧
  set_nested (JDict {[ "home" := JDict {[ "title" := JStr "Title" ]} ]})
    "home.title" (JStr "Other")
  = Ok (JDict {[ "home" := JDict {[ "title" := JStr "Title" ]} ]}).
Proof.
  split; [reflexivity|].
  by apply (set_nested_first_write_wins (JDict ∅) _ _ (JStr "Title")).
Defined.

(** ** More on the backend transformer *)

Section BackendFurther.
Context `{Builtins}.

Lemma translated_again (msg msg' : json) :
  translated msg msg' → translate_message msg' = Ok msg'.
Proof.
  intros (m & text & -> & Hm & ->). unfold translate_message. simpl.
  rewrite lookup_insert_ne, Hm by done. simpl.
  by rewrite insert_insert_eq.
Qed.

Lemma translate_all_again (msgs msgs' : list json) :
  Forall2 translated msgs msgs' → translate_all msgs' = Ok msgs'.
Proof.
  induction 1 as [|msg msg' msgs msgs' Hm _ IH]; simpl; [done|].
  by rewrite (translated_again _ _ Hm), IH.
Qed.

Lemma translate_messages_again (messages messages' : json) :
  translate_messages messages = Ok messages' →
  translate_messages messages' = Ok messages'.
Proof.
  intros Ht. pose proof (translate_messages_spec messages) as Hs.
  rewrite Ht in Hs.
  destruct (iterable_messages messages); [|by destruct Hs].
  destruct Hs as (? & [= <-] & Hs).
  destruct messages; try (by subst).
  destruct Hs as (l' & -> & Hl). unfold translate_messages. simpl.
  by rewrite (translate_all_again _ _ Hl).
Qed.

Lemma catalog_out_again (d : gmap string json) (messages : json) :
  catalog_out (catalog_out d messages) messages = catalog_out d messages.
Proof.
  unfold catalog_out.
  rewrite (insert_insert_ne (<["language":=JStr "de"]> d) "language" "messages")
    by done.
  by rewrite !insert_insert_eq.
Qed.

Lemma backend_transform_inv (data out : json) :
  backend_transform data = Ok out →
  ∃ d messages messages',
    data = JDict d ∧ d !! "messages" = Some messages ∧
    translate_messages messages = Ok messages' ∧
    out = JDict (catalog_out d messages').
Proof.
  destruct data; try done. rewrite backend_transform_dict.
  destruct (d !! "messages") as [messages|] eqn:Hm; [|done]. simpl.
  destruct (translate_messages messages) as [messages'|] eqn:Ht; [|done].
  intros [= <-]. by exists d, messages, messages'.
Qed.

(** X5: the catalog transformation is idempotent.  A catalog it returns
    is returned unchanged when it is transformed again: the language is
    already ["de"] and every translation is rebuilt from the message to
    what it already is. *)
Theorem backend_transform_idempotent (data out : json) :
  backend_transform data = Ok out → backend_transform out = Ok out.
Proof.
  intros (d & messages & messages' & -> & Hm & Ht & ->)%backend_transform_inv.
  rewrite backend_transform_dict. unfold catalog_out at 1.
  rewrite lookup_insert_eq, (translate_messages_again _ _ Ht). simpl.
  by rewrite catalog_out_again.
Qed.

Lemma translate_message_delete (m : gmap string json) :
  translate_message (JDict m)
  = translate_message (JDict (delete "translation" m)).
Proof.
  unfold translate_message. simpl. rewrite lookup_delete_ne by done.
  destruct (m !! "message"); simpl; [|done].
  by rewrite insert_delete_eq.
Qed.

Lemma translate_message_same (msg1 msg2 : json) :
  same_but_translation msg1 msg2 →
  translate_message msg1 = translate_message msg2.
Proof.
  intros [->|(m1 & m2 & -> & -> & Hm)]; [done|].
  by rewrite (translate_message_delete m1), (translate_message_delete m2), Hm.
Qed.

(** X6: prior translations are discarded.  Two lists of messages that
    agree message by message on every field other than [translation] are
    translated to the same list, or raise the same exception. *)
Theorem translate_all_discards_translation (msgs1 msgs2 : list json) :
  Forall2 same_but_translation msgs1 msgs2 →
  translate_all msgs1 = translate_all msgs2.
Proof.
  induction 1 as [|msg1 msg2 msgs1 msgs2 Hm _ IH]; simpl; [done|].
  by rewrite (translate_message_same _ _ Hm), IH.
Qed.

(** X7: [process_backend] prints one line when it ends normally on a list
    of messages, and the number in it is the number of messages. *)
Theorem process_backend_reports_count (w w' : world) (d : gmap string json)
    (l : list json) :
  json_files w !! backend_en_path = Some (Some (JDict d)) →
  d !! "messages" = Some (JList l) →
  process_backend w = Done w' →
  stdout w' = (stdout w ++ [backend_report (List.length l)])%list.
Proof.
  intros Hf Hm Hrun.
  pose proof (process_backend_spec w _ Hf) as Hs.
  destruct (malformed_catalog (Some (JDict d))).
  { destruct Hs as (e & He). congruence. }
  destruct Hs as (d0 & messages & messages' & n & [= <-] & Hm' & Ht & Hn & Hw).
  rewrite Hw in Hrun. injection Hrun as <-. simpl.
  rewrite Hm in Hm'. injection Hm' as <-.
  pose proof (translate_messages_spec (JList l)) as Hs. rewrite Ht in Hs.
  destruct (iterable_messages (JList l)); [|by destruct Hs].
  destruct Hs as (? & [= <-] & l' & -> & Hl).
  simpl in Hn. injection Hn as <-.
  by rewrite (Forall2_length _ _ _ Hl).
Qed.

End BackendFurther.

(** ** More on the frontend transformer *)

Lemma lookup_path_app (data : json) (q r : list string) :
  lookup_path data (q ++ r)%list = lookup_path data q ≫= λ v, lookup_path v r.
Proof.
  revert data. induction q as [|q0 q IH]; intros data; [done|].
  simpl. destruct data; try done.
  destruct (d !! q0); simpl; [apply IH | done].
Qed.

(** Below a path that is present, every intermediate position holds a
    mapping. *)
Lemma lookup_path_intermediate (data y : json) (parts q : list string) :
  lookup_path data parts = Some y → intermediate q parts →
  ∃ c, lookup_path data q = Some (JDict c).
Proof.
  intros Hy [[r ->] Hne]. rewrite lookup_path_app in Hy.
  destruct (lookup_path data q) as [v|]; [|done]. simpl in Hy.
  destruct r as [|r0 r]; [by rewrite app_nil_r in Hne|].
  destruct v; try done. by eexists.
Qed.


Section FrontendFurther.
Context `{Builtins}.

Lemma en_after_merged (en : gmap string json) (key : string) :
  en_after en key = merged en (str_split dot key) (JStr (display_text key)).
Proof.
  unfold en_after, get_nested. rewrite get_loop_lookup_path.
  destruct (lookup_path (JDict en) (str_split dot key)) as [x|] eqn:E; [|done].
  rewrite (merged_present _ _ _ x); [|apply str_split_nonempty|done].
  by destruct (is_none _).
Qed.

(** What the loop body does to the target tree, by the value the key has
    in the source tree. *)
Lemma trees_step_cases (en de : gmap string json) (key : string) :
  (∃ t, de_after de (en_value (JDict en) key) key
        = merged de (str_split dot key) (JStr ("[DE] " ++ t)) ∧
        (lookup_path (JDict (en_after en key)) (str_split dot key)
         = Some (JStr t) ∨
         lookup_path (JDict (en_after en key)) (str_split dot key)
         = Some JNull)) ∨
  (de_after de (en_value (JDict en) key) key = de ∧ en_after en key = en ∧
   ∃ x, lookup_path (JDict en) (str_split dot key) = Some x ∧
        is_str x = false).
Proof.
  pose proof (str_split_nonempty dot key) as Hne.
  unfold en_value, en_after, de_after, get_nested.
  rewrite get_loop_lookup_path.
  destruct (lookup_path (JDict en) (str_split dot key)) as [x|] eqn:E; simpl.
  - destruct x; simpl; try (right; by eauto).
    + left. eexists. split; [done|]. right.
      by rewrite (merged_present _ _ _ JNull).
    + left. eexists. split; [done|]. by left.
  - left. eexists. split; [done|]. left. by rewrite merged_absent.
Qed.

Lemma trees_after_cons (key : string) (keys : list string)
    (en de : gmap string json) :
  trees_after (key :: keys) en de =
  trees_after keys (en_after en key)
    (de_after de (en_value (JDict en) key) key).
Proof. done. Qed.

Lemma trees_after_fst (keys : list string) (en de : gmap string json) :
  (trees_after keys en de).1 = foldl en_after en keys.
Proof.
  revert en de. induction keys as [|key keys IH]; intros en de; [done|].
  rewrite trees_after_cons, IH. done.
Qed.

Lemma frontend_loop_dict (keys : list string) (en de : gmap string json) :
  frontend_loop keys (JDict en) (JDict de) =
  Ok (JDict (trees_after keys en de).1, JDict (trees_after keys en de).2).
Proof.
  revert en de. induction keys as [|key keys IH]; intros en de; [done|].
  simpl. rewrite frontend_step_spec, en_step_dict. simpl.
  by rewrite IH, trees_after_cons.
Qed.

Lemma process_frontend_dict (w : world) (lines : list string)
    (d : gmap string json) :
  text_files w !! frontend_keys_path = Some lines →
  load_en w = JDict d →
  process_frontend w =
  Done (print (frontend_report (List.length (read_keys lines)))
          (json_dump frontend_de_path
             (JDict (trees_after (read_keys lines) d ∅).2)
             (json_dump frontend_en_path
                (JDict (trees_after (read_keys lines) d ∅).1) w))).
Proof.
  intros Hk Hd. unfold process_frontend.
  by rewrite Hk, Hd, frontend_loop_dict.
Qed.

(** *** The target tree follows the source tree *)

Lemma mirrors_empty (en : gmap string json) : mirrors en ∅.
Proof.
  intros q x Hx. left. destruct q as [|q0 q]; [|done].
  injection Hx as <-. split; [done|]. by eexists.
Qed.

Lemma mirrors_step (en de : gmap string json) (key : string) :
  mirrors en de →
  mirrors (en_after en key) (de_after de (en_value (JDict en) key) key).
Proof.
  intros Hm. pose proof (str_split_nonempty dot key) as Hne.
  destruct (trees_step_cases en de key) as [(t & -> & Ht)|(-> & -> & _)];
    [|done].
  rewrite en_after_merged in *.
  intros q x Hx'. pose proof Hx' as Hx.
  apply merged_lookup_inv in Hx; [|done].
  destruct Hx as [Hx|[[Hq Hd]|(r & -> & Hn & Hx)]].
  - destruct (Hm q x Hx) as [[Hd (c & Hc)]|(s & -> & Hs)].
    + left. split; [done|]. by eapply merged_keeps_dicts.
    + right. exists s. split; [done|].
      destruct (decide (intermediate q (str_split dot key))) as [Hi|Hi].
      * destruct (merged_intermediate de _ q (JStr ("[DE] " ++ t)) _ Hx eq_refl Hi)
          as [c Hc].
        congruence.
      * destruct Hs as [Hs|Hs]; [left|right]; by apply merged_frame.
  - left. split; [done|].
    destruct Ht as [Ht|Ht]; by eapply lookup_path_intermediate.
  - right. destruct r as [|r0 r]; [|done]. injection Hx as <-.
    rewrite app_nil_r. by exists t.
Qed.

Lemma mirrors_after (keys : list string) (en de : gmap string json) :
  mirrors en de →
  mirrors (trees_after keys en de).1 (trees_after keys en de).2.
Proof.
  revert en de. induction keys as [|key keys IH]; intros en de Hm; [done|].
  rewrite trees_after_cons. by apply IH, mirrors_step.
Qed.

Lemma elem_of_rev_nil (k : string) (keys : list string) :
  k ∈ keys → k ∈ (rev keys ++ [])%list.
Proof.
  rewrite app_nil_r, !list_elem_of_In. apply in_rev.
Qed.

Lemma covered_step (seen : list string) (en de : gmap string json)
    (key : string) :
  covered seen en de →
  covered (key :: seen) (en_after en key)
    (de_after de (en_value (JDict en) key) key).
Proof.
  intros Hc k s Hk Hs. pose proof (str_split_nonempty dot key) as Hne.
  destruct (trees_step_cases en de key) as [(t & Hde & Ht)|(Hde & Hen & x & Hx & Hstr)];
    rewrite Hde.
  - apply elem_of_cons in Hk as [->|Hk]; [by apply merged_path_present|].
    rewrite en_after_merged in Hs.
    apply merged_lookup_inv in Hs; [|done].
    destruct Hs as [Hs|[[_ Hd]|(r & Hr & _ & Hs)]]; [|done|].
    + apply merged_keeps_paths. by eapply Hc.
    + destruct r as [|r0 r]; [|done]. rewrite app_nil_r in Hr. rewrite Hr.
      by apply merged_path_present.
  - rewrite Hen in Hs. apply elem_of_cons in Hk as [->|Hk]; [|by eapply Hc].
    rewrite Hx in Hs. by injection Hs as ->.
Qed.

Lemma covered_after (keys seen : list string) (en de : gmap string json) :
  covered seen en de →
  covered (rev keys ++ seen)
    (trees_after keys en de).1 (trees_after keys en de).2.
Proof.
  revert seen en de.
  induction keys as [|key keys IH]; intros seen en de Hc; [done|].
  rewrite trees_after_cons. simpl. rewrite <- app_assoc. simpl.
  by apply IH, covered_step.
Qed.

Lemma originates_step (seen : list string) (en0 en : gmap string json)
    (key : string) :
  originates seen en0 en → originates (key :: seen) en0 (en_after en key).
Proof.
  intros Ho q x Hx. rewrite en_after_merged in Hx.
  apply merged_lookup_inv in Hx; [|apply str_split_nonempty].
  destruct Hx as [Hx|[[_ Hd]|(r & -> & _ & Hx)]].
  - destruct (Ho q x Hx) as [?|[?|(k & Hk & <- & ->)]]; [by left|by right; left|].
    right. right. exists k. split; [by right|done].
  - by left.
  - destruct r as [|r0 r]; [|done]. injection Hx as <-.
    right. right. exists key. rewrite app_nil_r. split; [by left|done].
Qed.

Lemma originates_after (keys seen : list string) (en0 en : gmap string json) :
  originates seen en0 en →
  originates (rev keys ++ seen) en0 (foldl en_after en keys).
Proof.
  revert seen en. induction keys as [|key keys IH]; intros seen en Ho; [done|].
  simpl. rewrite <- app_assoc. simpl. by apply IH, originates_step.
Qed.

Lemma foldl_en_after_frame (keys : list string) (en : gmap string json)
    (q : list string) (x : json) :
  lookup_path (JDict en) q = Some x → is_dict x = false →
  (∀ k, k ∈ keys → ¬ intermediate q (str_split dot k)) →
  lookup_path (JDict (foldl en_after en keys)) q = Some x.
Proof.
  revert en. induction keys as [|key keys IH]; intros en Hx Hd Hk; [done|].
  simpl. apply IH; [|done|].
  - rewrite en_after_merged. apply merged_frame; [done|done|].
    apply Hk. by left.
  - intros k Hin. apply Hk. by right.
Qed.

(** X8: the target tree written follows the source tree written.  On a
    source tree that is a mapping the run ends normally, and every value
    of the target tree is either a mapping, at a path where the source
    tree has a mapping too, or the string ["[DE] "] followed by the string
    the source tree has at the same path (by a label, where the source
    tree stores [None]).  The target tree holds nothing else. *)
Theorem process_frontend_target_mirrors (w : world) (lines : list string)
    (d : gmap string json) :
  text_files w !! frontend_keys_path = Some lines →
  load_en w = JDict d →
  ∃ w' en' de',
    process_frontend w = Done w' ∧
    json_files w' !! frontend_en_path = Some (Some (JDict en')) ∧
    json_files w' !! frontend_de_path = Some (Some (JDict de')) ∧
    ∀ q x, lookup_path (JDict de') q = Some x →
      (is_dict x = true ∧ ∃ c, lookup_path (JDict en') q = Some (JDict c)) ∨
      (∃ s, x = JStr ("[DE] " ++ s) ∧
            (lookup_path (JDict en') q = Some (JStr s) ∨
             lookup_path (JDict en') q = Some JNull)).
Proof.
  intros Hk Hd. rewrite (process_frontend_dict w lines d Hk Hd).
  eexists _, _, _. split; [done|]. simpl.
  rewrite lookup_insert_ne by apply frontend_paths_ne.
  rewrite !lookup_insert_eq. split; [done|]. split; [done|].
  apply mirrors_after, mirrors_empty.
Qed.

(** X9: every listed key that ends as a string in the source tree has its
    tagged copy in the target tree: where [get_nested] finds the string
    [s] under a key of the list in the source tree written, it finds
    ["[DE] " + s] under that key in the target tree written. *)
Theorem process_frontend_tags_strings (w : world) (lines : list string)
    (d : gmap string json) :
  text_files w !! frontend_keys_path = Some lines →
  load_en w = JDict d →
  ∃ w' en' de',
    process_frontend w = Done w' ∧
    json_files w' !! frontend_en_path = Some (Some en') ∧
    json_files w' !! frontend_de_path = Some (Some de') ∧
    ∀ k s, k ∈ read_keys lines → get_nested en' k = JStr s →
           get_nested de' k = JStr ("[DE] " ++ s).
Proof.
  intros Hk Hd. rewrite (process_frontend_dict w lines d Hk Hd).
  eexists _, _, _. split; [done|]. simpl.
  rewrite lookup_insert_ne by apply frontend_paths_ne.
  rewrite !lookup_insert_eq. split; [done|]. split; [done|].
  intros k s Hin. unfold get_nested. rewrite !get_loop_lookup_path.
  intros Hs.
  assert (lookup_path (JDict (trees_after (read_keys lines) d ∅).1)
            (str_split dot k) = Some (JStr s)) as Hen.
  { destruct (lookup_path _ (str_split dot k)); simpl in Hs; by subst. }
  assert (covered (rev (read_keys lines) ++ [])
            (trees_after (read_keys lines) d ∅).1
            (trees_after (read_keys lines) d ∅).2) as Hc.
  { apply covered_after. by intros ? ? ?%elem_of_nil. }
  destruct (Hc k s) as [x Hx]; [by apply elem_of_rev_nil|done|].
  rewrite Hx. simpl.
  destruct (mirrors_after (read_keys lines) d ∅ (mirrors_empty d) _ _ Hx)
    as [[_ (c & Hc')]|(s' & -> & [Hs'|Hs'])]; congruence.
Qed.

(** X10: the run keeps what the source tree held.  A value of the initial
    source tree that is not a mapping is found unchanged at its path in
    the source tree written, unless a key of the list passes through that
    path (has it at an intermediate position). *)
Theorem process_frontend_keeps_leaves (w : world) (lines : list string)
    (d : gmap string json) (q : list string) (x : json) :
  text_files w !! frontend_keys_path = Some lines →
  load_en w = JDict d →
  lookup_path (JDict d) q = Some x → is_dict x = false →
  (∀ k, k ∈ read_keys lines → ¬ intermediate q (str_split dot k)) →
  ∃ w' en',
    process_frontend w = Done w' ∧
    json_files w' !! frontend_en_path = Some (Some en') ∧
    lookup_path en' q = Some x.
Proof.
  intros Hk Hd Hx Hnd Hq. rewrite (process_frontend_dict w lines d Hk Hd).
  eexists _, _. split; [done|]. simpl.
  rewrite lookup_insert_ne by apply frontend_paths_ne.
  rewrite !lookup_insert_eq. split; [done|].
  rewrite trees_after_fst. by apply foldl_en_after_frame.
Qed.

(** X11: where the value of a listed key comes from.  In the source tree
    written every key of the list is present, and what it holds is a
    mapping, or the value the initial tree held under that key, or the
    label derived from the key. *)
Theorem process_frontend_key_values (w : world) (lines : list string)
    (d : gmap string json) :
  text_files w !! frontend_keys_path = Some lines →
  load_en w = JDict d →
  ∃ w' en',
    process_frontend w = Done w' ∧
    json_files w' !! frontend_en_path = Some (Some en') ∧
    ∀ k, k ∈ read_keys lines →
      ∃ x, lookup_path en' (str_split dot k) = Some x ∧
           (is_dict x = true ∨
            lookup_path (JDict d) (str_split dot k) = Some x ∨
            x = JStr (display_text k)).
Proof.
  intros Hk Hd. rewrite (process_frontend_dict w lines d Hk Hd).
  eexists _, _. split; [done|]. simpl.
  rewrite lookup_insert_ne by apply frontend_paths_ne.
  rewrite !lookup_insert_eq. split; [done|].
  rewrite trees_after_fst. intros k Hin.
  destruct (foldl_en_after_present (read_keys lines) d k Hin) as [x Hx].
  exists x. split; [done|].
  assert (originates (rev (read_keys lines) ++ []) d
            (foldl en_after d (read_keys lines))) as Ho.
  { apply originates_after. intros ? ? ?. by right; left. }
  destruct (Ho _ _ Hx) as [?|[?|(k' & _ & Hk' & ->)]]; [by left|by right; left|].
  right. right. by rewrite (str_split_inj _ _ _ Hk').
Qed.

End FrontendFurther.

(** ** When the frontend transformer raises, and the entry point *)

Section EntryProperties.
Context `{Builtins}.





(** X13: the label of a key is made from its last segment only: a key and
    the same key behind any prefix and a dot get the same label. *)
Theorem display_name_last_segment (p q : string) :
  display_name (p ++ "." ++ q) = display_name q.
Proof.
  unfold display_name. change (p ++ "." ++ q) with (p ++ String dot q).
  rewrite str_split_app, last_app.
  pose proof (str_split_nonempty dot q) as Hne.
  destruct (last (str_split dot q)) eqn:E; [done|].
  by apply last_None in E.
Qed.

Lemma process_backend_done_frame (w w1 : world) :
  process_backend w = Done w1 →
  text_files w1 = text_files w ∧
  ∀ p, p ≠ backend_de_path → json_files w1 !! p = json_files w !! p.
Proof.
  unfold process_backend.
  destruct (json_files w !! backend_en_path) as [file|].
  - repeat match goal with
           | |- context [match ?r with Ok _ => _ | Raise _ => _ end] =>
               destruct r; [|done]
           end.
    intros [= <-]. split; [done|]. intros p Hp. simpl.
    by rewrite lookup_insert_ne.
  - by intros [= <-].
Qed.

(** X14: a malformed backend catalog ends the whole run: [main] raises
    before anything is written, and the frontend transformer is not
    run. *)
Theorem main_stops_on_malformed_catalog (w : world) (file : option json) :
  json_files w !! backend_en_path = Some file →
  malformed_catalog file = true →
  ∃ e, main w = Raised e w.
Proof.
  intros Hf Hm. pose proof (process_backend_spec w file Hf) as Hs.
  rewrite Hm in Hs. destruct Hs as [e He]. exists e. unfold main. by rewrite He.
Qed.

(** X15: the two operations do not interfere.  When the backend
    transformer ends normally, [main] ends as the frontend transformer
    alone would: with the same exception, or normally with the same two
    frontend trees written, next to the backend output. *)
Theorem main_pipelines_independent (w w1 : world) :
  process_backend w = Done w1 →
  match process_frontend w with
  | Done w2 =>
      ∃ w3, main w = Done w3 ∧
            json_files w3 !! frontend_en_path = json_files w2 !! frontend_en_path ∧
            json_files w3 !! frontend_de_path = json_files w2 !! frontend_de_path ∧
            json_files w3 !! backend_de_path = json_files w1 !! backend_de_path
  | Raised e _ => main w = Raised e w1
  end.
Proof.
  intros Hrun. unfold main. rewrite Hrun.
  destruct (process_backend_done_frame _ _ Hrun) as [Ht Hj].
  assert (load_en w1 = load_en w) as Hl.
  { unfold load_en. by rewrite Hj. }
  unfold process_frontend. rewrite Ht, Hl.
  destruct (text_files w !! frontend_keys_path) as [lines|].
  - destruct (frontend_loop _ _ _) as [[en de]|e]; [|done].
    eexists. split; [done|]. simpl. split; [|split].
    + rewrite !(lookup_insert_ne _ frontend_de_path)
        by apply frontend_paths_ne.
      by rewrite !lookup_insert_eq.
    + by rewrite !lookup_insert_eq.
    + by rewrite !lookup_insert_ne by (by vm_compute).
  - eexists. split; [done|]. simpl. by rewrite !Hj by (by vm_compute).
Qed.

(** X16: missing inputs are skipped, not errors.  When neither the
    backend catalog nor the key list exists, [main] ends normally, writes
    no file and prints the two diagnostics, in this order. *)
Theorem main_inputs_missing (w : world) :
  json_files w !! backend_en_path = None →
  text_files w !! frontend_keys_path = None →
  main w =
  Done (World (text_files w) (json_files w)
          (stdout w ++ ["File not found: locales/en/out.gotext.json";
                        "File not found: ui/src/locales/keys_found.txt"])).
Proof.
  intros Hb Hf. unfold main, process_backend. rewrite Hb.
  unfold process_frontend. simpl. rewrite Hf.
  unfold print. simpl. by rewrite <- app_assoc.
Qed.

End EntryProperties.

(** ** The further properties at concrete inputs *)

Section FurtherExamples.
#[local] Existing Instance ascii_builtins.

Lemma backend_transform_idempotent_witness :
  ∃ out, backend_transform (JDict hello_catalog) = Ok out ∧
         backend_transform out = Ok out.
Proof.
  eexists. split; [by vm_compute|].
  apply (backend_transform_idempotent (JDict hello_catalog)). by vm_compute.
Defined.

Lemma translate_all_discards_translation_witness :
  Forall2 same_but_translation
    [JDict hello_message]
    [JDict (<["translation" := JStr "Hallo"]> hello_message)] ∧
  translate_all [JDict hello_message]
  = translate_all [JDict (<["translation" := JStr "Hallo"]> hello_message)].
Proof.
  assert (Forall2 same_but_translation
            [JDict hello_message]
            [JDict (<["translation" := JStr "Hallo"]> hello_message)]) as Hs.
  { constructor; [|constructor]. right. eexists _, _.
    split; [done|]. split; [done|]. by vm_compute. }
  split; [done|]. by apply translate_all_discards_translation.
Defined.

Lemma process_backend_reports_count_witness :
  ∃ w', process_backend (backend_world (Some (JDict hello_catalog))) = Done w' ∧
        stdout w' = [backend_report 1].
Proof.
  eexists. split; [by vm_compute|].
  apply (process_backend_reports_count
           (backend_world (Some (JDict hello_catalog))) _ hello_catalog
           [JDict hello_message]); [reflexivity|reflexivity|by vm_compute].
Defined.

Lemma process_frontend_target_mirrors_witness :
  text_files (frontend_world ["home.title"; "home"] None) !! frontend_keys_path
  = Some ["home.title"; "home"] ∧
  load_en (frontend_world ["home.title"; "home"] None) = JDict ∅ ∧
  ∃ w', process_frontend (frontend_world ["home.title"; "home"] None) = Done w'.
Proof.
  split; [reflexivity|]. split; [reflexivity|].
  destruct (process_frontend_target_mirrors
              (frontend_world ["home.title"; "home"] None)
              ["home.title"; "home"] ∅ eq_refl eq_refl)
    as (w' & _ & _ & Hw & _).
  by exists w'.
Defined.

Lemma process_frontend_tags_strings_witness :
  text_files (frontend_world ["home.title"] (Some (JDict {[ "x" := JStr "y" ]})))
    !! frontend_keys_path = Some ["home.title"] ∧
  load_en (frontend_world ["home.title"] (Some (JDict {[ "x" := JStr "y" ]})))
  = JDict {[ "x" := JStr "y" ]} ∧
  ∃ w' de',
    process_frontend
      (frontend_world ["home.title"] (Some (JDict {[ "x" := JStr "y" ]})))
    = Done w' ∧
    json_files w' !! frontend_de_path = Some (Some de').
Proof.
  split; [reflexivity|]. split; [reflexivity|].
  destruct (process_frontend_tags_strings
              (frontend_world ["home.title"] (Some (JDict {[ "x" := JStr "y" ]})))
              ["home.title"] {[ "x" := JStr "y" ]} eq_refl eq_refl)
    as (w' & _ & de' & Hw & _ & Hde & _).
  by exists w', de'.
Defined.

Lemma process_frontend_keeps_leaves_witness :
  let w := frontend_world ["b"] (Some (JDict {[ "a" := JStr "x" ]})) in
  text_files w !! frontend_keys_path = Some ["b"] ∧
  load_en w = JDict {[ "a" := JStr "x" ]} ∧
  lookup_path (JDict {[ "a" := JStr "x" ]}) ["a"] = Some (JStr "x") ∧
  is_dict (JStr "x") = false ∧
  (∀ k, k ∈ read_keys ["b"] → ¬ intermediate ["a"] (str_split dot k)) ∧
  ∃ w' en',
    process_frontend w = Done w' ∧
    json_files w' !! frontend_en_path = Some (Some en') ∧
    lookup_path en' ["a"] = Some (JStr "x").
Proof.
  assert (∀ k, k ∈ read_keys ["b"] → ¬ intermediate ["a"] (str_split dot k))
    as Hk.
  { intros k Hin [[r Hr] _].
    apply list_elem_of_singleton in Hin as ->. by vm_compute in Hr. }
  repeat (split; [first [reflexivity | exact Hk]|]).
  by apply (process_frontend_keeps_leaves
              (frontend_world ["b"] (Some (JDict {[ "a" := JStr "x" ]})))
              ["b"] {[ "a" := JStr "x" ]} ["a"] (JStr "x")).
Defined.

Lemma process_frontend_key_values_witness :
  text_files (frontend_world ["home.title"] None) !! frontend_keys_path
  = Some ["home.title"] ∧
  load_en (frontend_world ["home.title"] None) = JDict ∅ ∧
  ∃ w', process_frontend (frontend_world ["home.title"] None) = Done w'.
Proof.
  split; [reflexivity|]. split; [reflexivity|].
  destruct (process_frontend_key_values
              (frontend_world ["home.title"] None)
              ["home.title"] ∅ eq_refl eq_refl)
    as (w' & _ & Hw & _).
  by exists w'.
Defined.


Lemma main_stops_on_malformed_catalog_witness :
  let w := backend_world (Some (JList [])) in
  json_files w !! backend_en_path = Some (Some (JList [])) ∧
  malformed_catalog (Some (JList [])) = true ∧
  ∃ e, main w = Raised e w.
Proof.
  split; [reflexivity|]. split; [reflexivity|].
  exact (main_stops_on_malformed_catalog
           (backend_world (Some (JList []))) (Some (JList []))
           eq_refl eq_refl).
Defined.

Lemma main_pipelines_independent_witness :
  let w := World {[ frontend_keys_path := ["home.title"] ]}
                 {[ backend_en_path := Some (JDict hello_catalog) ]} [] in
  ∃ w1 w3, process_backend w = Done w1 ∧ main w = Done w3.
Proof.
  intros w.
  assert (∃ w1, process_backend w = Done w1) as [w1 H1]
    by (eexists; by vm_compute).
  pose proof (main_pipelines_independent w w1 H1) as Hm.
  destruct (process_frontend w) as [w2|e w2] eqn:E; [|by vm_compute in E].
  destruct Hm as (w3 & Hm & _). by exists w1, w3.
Defined.

Lemma main_inputs_missing_witness :
  json_files (World ∅ ∅ []) !! backend_en_path = None ∧
  text_files (World ∅ ∅ []) !! frontend_keys_path = None ∧
  main (World ∅ ∅ []) =
  Done (World ∅ ∅ ["File not found: locales/en/out.gotext.json";
                   "File not found: ui/src/locales/keys_found.txt"]).
Proof.
  split; [reflexivity|]. split; [reflexivity|].
  exact (main_inputs_missing (World ∅ ∅ []) eq_refl eq_refl).
Defined.

End FurtherExamples.

(** ** The key list and the prior target tree *)

Section InputProperties.
Context `{Builtins}.

(** X17: blank lines of the key-list file are ignored.  Every key is the
    stripped text of a line and is not empty, and a line that strips to
    nothing contributes no key wherever it stands. *)
Theorem read_keys_ignores_blank (before after : list string) (blank : string) :
  str_strip blank = "" →
  read_keys (before ++ blank :: after) = read_keys (before ++ after) ∧
  Forall (λ k, k ≠ "" ∧ ∃ line, line ∈ (before ++ after)%list ∧
                              k = str_strip line)
         (read_keys (before ++ after)).
Proof.
  intros Hb. unfold read_keys. split.
  - rewrite !filter_app, filter_cons.
    by destruct (decide (str_strip blank ≠ "")).
  - apply Forall_forall. intros k (line & -> & Hin)%list_elem_of_fmap.
    apply list_elem_of_filter in Hin as [Hne Hin]. split; [done|].
    by exists line.
Qed.

(** X18: the target tree is built from nothing.  When the key-list file
    is there, what the file of the target tree held before the run plays
    no part: with any prior content the run ends in the same way and
    leaves the same files. *)
Theorem process_frontend_ignores_prior_target (w : world)
    (lines : list string) (prior : option json) :
  text_files w !! frontend_keys_path = Some lines →
  let w0 := World (text_files w)
                  (<[frontend_de_path := prior]> (json_files w)) (stdout w) in
  match process_frontend w with
  | Done w' =>
      ∃ w0', process_frontend w0 = Done w0' ∧
             json_files w0' = json_files w' ∧ stdout w0' = stdout w'
  | Raised e _ => process_frontend w0 = Raised e w0
  end.
Proof.
  intros Hk. simpl. unfold process_frontend, load_en. simpl.
  rewrite lookup_insert_ne by apply frontend_paths_ne.
  rewrite Hk.
  destruct (frontend_loop _ _ _) as [[en de]|e]; [|done].
  eexists. split; [done|]. simpl. split; [|done].
  rewrite (insert_insert_ne _ frontend_en_path frontend_de_path)
    by (by vm_compute).
  by rewrite insert_insert_eq.
Qed.

End InputProperties.

Section InputExamples.
#[local] Existing Instance ascii_builtins.

Lemma read_keys_ignores_blank_witness :
  str_strip "   " = "" ∧
  read_keys (["home.title"] ++ "   " :: ["home.body"])
  = read_keys (["home.title"] ++ ["home.body"]) ∧
  Forall (λ k, k ≠ "" ∧ ∃ line, line ∈ (["home.title"] ++ ["home.body"])%list ∧
                              k = str_strip line)
         (read_keys (["home.title"] ++ ["home.body"])).
Proof.
  split; [reflexivity|].
  by apply (read_keys_ignores_blank ["home.title"] ["home.body"] "   ").
Defined.

Lemma process_frontend_ignores_prior_target_witness :
  let w := frontend_world ["home.title"] None in
  let w0 := World (text_files w)
                  (<[frontend_de_path := Some (JStr "old")]> (json_files w))
                  (stdout w) in
  text_files w !! frontend_keys_path = Some ["home.title"] ∧
  ∃ w' w0', process_frontend w = Done w' ∧ process_frontend w0 = Done w0' ∧
            json_files w0' = json_files w'.
Proof.
  intros w w0. split; [reflexivity|].
  pose proof (process_frontend_ignores_prior_target w ["home.title"]
                (Some (JStr "old")) eq_refl) as Hp.
  simpl in Hp.
  destruct (process_frontend w) as [w'|e w'] eqn:E; [|by vm_compute in E].
  destruct Hp as (w0' & Hw0 & Hj & _). by exists w', w0'.
Defined.

End InputExamples.
